(** * Bank Nifty dashboard: the fetch -> normalize -> filter pipeline

    A shallow embedding of [bank_nifty_dashboard.py].  The script is a
    Streamlit page: it restricts the ticker directory to the companies chosen
    in the side bar, asks the market-data provider for each symbol, builds one
    row per company, loads the rows into a pandas DataFrame and keeps the rows
    that pass the ROE and P/E sliders.

    Python values are modelled as they are in the interpreter: numbers are
    unbounded integers or IEEE binary64 floats (Rocq's primitive floats),
    exceptions are values of an error monad, and the provider is a function
    from ticker symbol to its answer, together with a log of the requests that
    were sent. *)

From Stdlib Require Import ZArith List String Bool Lia Floats.
Import ListNotations.

Set Warnings "-inexact-float".

Open Scope Z_scope.
Open Scope string_scope.
Open Scope list_scope.

(** ** Exceptions and the error monad *)

Inductive PyExn : Type :=
| KeyError (key : string)
| TypeError
| OverflowError
| ZeroDivisionError
| ProviderError (symbol : string).

Inductive result (A : Type) : Type :=
| Ok (a : A)
| Raise (e : PyExn).

Arguments Ok {A} a.
Arguments Raise {A} e.

Definition rbind {A B : Type} (m : result A) (k : A -> result B) : result B :=
  match m with
  | Ok a => k a
  | Raise e => Raise e
  end.

Declare Scope py_scope.
Delimit Scope py_scope with py.

Notation "'let?' x ':=' m 'in' k" := (rbind m (fun x => k))
  (at level 10, x name, m at level 100, k at level 200) : py_scope.

Open Scope py_scope.

(** ** Python numbers *)

Module Py.

(** An [int] or a [float]. *)
Inductive number : Type :=
| PyInt (z : Z)
| PyFloat (f : float).

(** [float(z)] for an [int]: round to nearest, ties to even; an [int] beyond
    the binary64 range raises [OverflowError]. *)
Definition float_of_int (z : Z) : result float :=
  match binary_normalize prec emax z 0 false with
  | S754_infinity _ => Raise OverflowError
  | sf => Ok (SF2Prim sf)
  end.

(** The coercion Python applies to the [int] operand of a mixed operation. *)
Definition as_float (v : number) : result float :=
  match v with
  | PyInt z => float_of_int z
  | PyFloat f => Ok f
  end.

(** [a * b]. *)
Definition mul (a b : number) : result number :=
  match a, b with
  | PyInt x, PyInt y => Ok (PyInt (x * y))
  | _, _ =>
      let? x := as_float a in
      let? y := as_float b in
      Ok (PyFloat (x * y)%float)
  end.

(** [a / d] where the divisor is a [float]. *)
Definition truediv (a : number) (d : float) : result number :=
  let? x := as_float a in
  if (d =? 0)%float then Raise ZeroDivisionError
  else Ok (PyFloat (x / d)%float).

(** The exact value of a number: not-a-number, an infinity, or [m * 2^e]. *)
Inductive exact_value : Type :=
| XNaN
| XInf (negative : bool)
| XFin (m e : Z).

Definition exact (v : number) : exact_value :=
  match v with
  | PyInt z => XFin z 0
  | PyFloat f =>
      match Prim2SF f with
      | S754_nan => XNaN
      | S754_infinity s => XInf s
      | S754_zero _ => XFin 0 0
      | S754_finite s m e => XFin (cond_Zopp s (Zpos m)) e
      end
  end.

(** Python compares an [int] with a [float], and two floats, by value; every
    comparison with not-a-number is false. *)
Definition compare (a b : number) : option comparison :=
  match exact a, exact b with
  | XNaN, _ | _, XNaN => None
  | XInf sa, XInf sb =>
      Some (match sa, sb with
            | true, false => Lt
            | false, true => Gt
            | _, _ => Eq
            end)
  | XInf s, XFin _ _ => Some (if s then Lt else Gt)
  | XFin _ _, XInf s => Some (if s then Gt else Lt)
  | XFin m1 e1, XFin m2 e2 =>
      let e := Z.min e1 e2 in
      Some (Z.compare (m1 * 2 ^ (e1 - e)) (m2 * 2 ^ (e2 - e)))
  end.

Definition lt (a b : number) : bool :=
  match compare a b with Some Lt => true | _ => false end.

Definition gt (a b : number) : bool :=
  match compare a b with Some Gt => true | _ => false end.

Definition le (a b : number) : bool :=
  match compare a b with Some Lt | Some Eq => true | _ => false end.

Definition ge (a b : number) : bool :=
  match compare a b with Some Gt | Some Eq => true | _ => false end.

Definition eq (a b : number) : bool :=
  match compare a b with Some Eq => true | _ => false end.

(** The integer nearest to [num / den] for [den > 0], ties to even. *)
Definition round_half_even (num den : Z) : Z :=
  let (q, r) := Z.div_eucl num den in
  match Z.compare (2 * r) den with
  | Lt => q
  | Gt => q + 1
  | Eq => if Z.even q then q else q + 1
  end.

(** The number of hundredths nearest to the magnitude [m * 2^e]. *)
Definition hundredths (m : positive) (e : Z) : Z :=
  match e with
  | Zneg k => round_half_even (Zpos m * 100) (2 ^ Zpos k)
  | _ => Zpos m * 100 * 2 ^ e
  end.

(** The binary64 nearest to the decimal [n / 100], with sign [s]. *)
Definition float_of_hundredths (s : bool) (n : Z) : float :=
  match n with
  | Zpos p =>
      SF2Prim (SFdiv prec emax (S754_finite s p 0) (S754_finite false 100 0))
  | _ => SF2Prim (S754_zero s)
  end.

(** [round(x, 2)] for a [float]: CPython prints the shortest correctly
    rounded decimal with two digits after the point (ties to even on the
    exact binary value) and reads it back as the nearest double; infinities
    and not-a-number round to themselves. *)
Definition float_round2 (x : float) : float :=
  match Prim2SF x with
  | S754_finite s m e => float_of_hundredths s (hundredths m e)
  | _ => x
  end.

(** [round(v, 2)]: an [int] is returned unchanged. *)
Definition round2 (v : number) : number :=
  match v with
  | PyInt z => PyInt z
  | PyFloat f => PyFloat (float_round2 f)
  end.

End Py.

Import Py.

(** ** Python dictionaries with string keys

    A [dict] keeps its keys in insertion order; assigning to a key that is
    already present replaces the value and leaves the position unchanged. *)

Definition dict (V : Type) : Type := list (string * V).

Fixpoint dict_get {V : Type} (d : dict V) (k : string) : result V :=
  match d with
  | [] => Raise (KeyError k)
  | (k', v) :: rest => if String.eqb k' k then Ok v else dict_get rest k
  end.

Fixpoint dict_set {V : Type} (d : dict V) (k : string) (v : V) : dict V :=
  match d with
  | [] => [(k, v)]
  | (k', v') :: rest =>
      if String.eqb k' k then (k', v) :: rest else (k', v') :: dict_set rest k v
  end.

(** ** Rows and the pandas DataFrame *)

(** The trend glyph of a row: "up", "down" or "in-between". *)
Inductive Trend : Type := Up | Down | Flat.

Definition glyph (t : Trend) : string :=
  match t with
  | Up => "⬆️"
  | Down => "⬇️"
  | Flat => "↔️"
  end.

(** One dictionary appended to [data] by [fetch_data]; the fields are its
    keys "Company", "Current Price", "52-Week High", "52-Week Low", "Trend",
    "Market Cap (Cr)", "P/E Ratio" and "ROE (%)".  The P/E is the quote's
    trailing P/E as it is, hence a number or absent like the fields of
    [Info]. *)
Record Row : Type := {
  Company : string;
  Current_Price : number;
  High_52_Week : number;
  Low_52_Week : number;
  Trend_glyph : Trend;
  Market_Cap_Cr : number;
  PE_Ratio : option number;
  ROE_pct : number
}.

Module Pd.

Inductive cell : Type :=
| CStr (s : string)
| CNum (v : number)
| CNone.

Definition column_names : list string :=
  ["Company"; "Current Price"; "52-Week High"; "52-Week Low"; "Trend";
   "Market Cap (Cr)"; "P/E Ratio"; "ROE (%)"].

(** The value a row holds under a key; a missing value is [CNone]. *)
Definition cell_of (r : Row) (col : string) : cell :=
  if String.eqb col "Company" then CStr (Company r)
  else if String.eqb col "Current Price" then CNum (Current_Price r)
  else if String.eqb col "52-Week High" then CNum (High_52_Week r)
  else if String.eqb col "52-Week Low" then CNum (Low_52_Week r)
  else if String.eqb col "Trend" then CStr (glyph (Trend_glyph r))
  else if String.eqb col "Market Cap (Cr)" then CNum (Market_Cap_Cr r)
  else if String.eqb col "P/E Ratio" then
    match PE_Ratio r with Some v => CNum v | None => CNone end
  else if String.eqb col "ROE (%)" then CNum (ROE_pct r)
  else CNone.

(** A frame: its column labels and its rows, in order. *)
Record DataFrame : Type := {
  columns : list string;
  rows : list Row
}.

(** [pd.DataFrame(data)] for a list of dictionaries: the columns are the keys
    of the dictionaries, so an empty list gives a frame without columns. *)
Definition DataFrame_new (data : list Row) : DataFrame :=
  {| columns := match data with [] => [] | _ :: _ => column_names end;
     rows := data |}.

(** [df[col]]: the column as a series, [KeyError] for an unknown label. *)
Definition getitem (df : DataFrame) (col : string) : result (list cell) :=
  if existsb (String.eqb col) (columns df)
  then Ok (map (fun r => cell_of r col) (rows df))
  else Raise (KeyError col).

Fixpoint map_result {A B : Type} (f : A -> result B) (l : list A)
  : result (list B) :=
  match l with
  | [] => Ok []
  | a :: rest =>
      let? b := f a in
      let? bs := map_result f rest in
      Ok (b :: bs)
  end.

(** [series <op> scalar], element by element: a missing value ([None] or
    NaN) compares false, a string cannot be ordered against a number.  The
    scalars of the script are the integers of the two sliders (0 to 30 and
    5 to 50), which binary64 holds exactly, so comparing a numeric column
    with them is the comparison by value. *)
Definition compare_scalar (op : number -> number -> bool)
  (series : list cell) (scalar : Z) : result (list bool) :=
  map_result
    (fun c =>
       match c with
       | CNum v => Ok (op v (PyInt scalar))
       | CNone => Ok false
       | CStr _ => Raise TypeError
       end)
    series.

(** [a & b] on two boolean series of one frame. *)
Definition series_and (a b : list bool) : list bool :=
  map (fun p => andb (fst p) (snd p)) (combine a b).

(** [df[mask]]: the rows whose mask entry is true, columns unchanged. *)
Definition getitem_mask (df : DataFrame) (mask : list bool) : DataFrame :=
  {| columns := columns df;
     rows := map fst (filter snd (combine (rows df) mask)) |}.

End Pd.

Import Pd.

(** ** The market-data provider and the request log *)

(** The part of [yf.Ticker(symbol).info] the script reads: each key is
    present with a number or absent.  An answer that holds [None] or a string
    under one of these keys is not described by this record: on such an
    answer the arithmetic of the loop body, or the comparison of the filter,
    raises [TypeError]. *)
Record Info : Type := {
  currentPrice : option number;
  fiftyTwoWeekHigh : option number;
  fiftyTwoWeekLow : option number;
  marketCap : option number;
  trailingPE : option number;
  returnOnEquity : option number
}.

(** A provider answers a symbol with its info or raises. *)
Definition Provider : Type := string -> result Info.

(** The answer of a provider that has no data for a symbol. *)
Definition no_data : Info :=
  {| currentPrice := None; fiftyTwoWeekHigh := None; fiftyTwoWeekLow := None;
     marketCap := None; trailingPE := None; returnOnEquity := None |}.

(** [info.get(key, default)]. *)
Definition get (field : option number) (default : number) : number :=
  match field with
  | Some v => v
  | None => default
  end.

(** Computations that may raise and that record, in order, the symbols
    requested from the provider. *)
Definition M (A : Type) : Type := list string -> result A * list string.

Definition ret {A : Type} (a : A) : M A := fun log => (Ok a, log).

Definition bind {A B : Type} (m : M A) (k : A -> M B) : M B :=
  fun log =>
    match m log with
    | (Ok a, log') => k a log'
    | (Raise e, log') => (Raise e, log')
    end.

Definition lift {A : Type} (r : result A) : M A := fun log => (r, log).

Notation "'let!' x ':=' m 'in' k" := (bind m (fun x => k))
  (at level 10, x name, m at level 100, k at level 200) : py_scope.

(** [yf.Ticker(symbol).info]: one request, no second attempt. *)
Definition ticker_info (provider : Provider) (symbol : string) : M Info :=
  fun log => (provider symbol, (log ++ [symbol])).

(** ** The script *)

Definition bank_nifty_tickers : dict string :=
  [("HDFC Bank", "HDFCBANK.NS");
   ("ICICI Bank", "ICICIBANK.NS");
   ("Axis Bank", "AXISBANK.NS");
   ("Kotak Mahindra Bank", "KOTAKBANK.NS");
   ("State Bank of India", "SBIN.NS");
   ("IndusInd Bank", "INDUSINDBK.NS");
   ("Bank of Baroda", "BANKBARODA.NS");
   ("Punjab National Bank", "PNB.NS");
   ("Canara Bank", "CANBK.NS");
   ("Federal Bank", "FEDERALBNK.NS");
   ("IDFC First Bank", "IDFCFIRSTB.NS");
   ("AU Small Finance Bank", "AUBANK.NS")].

(** The conditional expression that chooses the glyph; [low * 1.05] is only
    evaluated when the first test fails. *)
Definition trend_of (current high low : number) : result Trend :=
  let? h := mul high (PyFloat 0.95) in
  if gt current h then Ok Up
  else
    let? l := mul low (PyFloat 1.05) in
    if lt current l then Ok Down else Ok Flat.

(** The body of the loop of [fetch_data] after the request: the dictionary
    built for one company. *)
Definition make_row (name : string) (info : Info) : result Row :=
  let current := get (currentPrice info) (PyInt 0) in
  let high := get (fiftyTwoWeekHigh info) (PyInt 0) in
  let low := get (fiftyTwoWeekLow info) (PyInt 0) in
  let? trend := trend_of current high low in
  let? cap := truediv (get (marketCap info) (PyInt 0)) 1e7 in
  let? roe := mul (get (returnOnEquity info) (PyInt 0)) (PyInt 100) in
  Ok {| Company := name;
        Current_Price := current;
        High_52_Week := high;
        Low_52_Week := low;
        Trend_glyph := trend;
        Market_Cap_Cr := round2 cap;
        PE_Ratio := trailingPE info;
        ROE_pct := round2 roe |}.

(** The loop of [fetch_data] over [tickers.items()], with the rows appended
    to [data] so far. *)
Fixpoint fetch_rows (provider : Provider) (items : dict string)
  (data : list Row) : M (list Row) :=
  match items with
  | [] => ret data
  | (name, symbol) :: rest =>
      let! info := ticker_info provider symbol in
      let! row := lift (make_row name info) in
      fetch_rows provider rest (data ++ [row])
  end.

Definition fetch_data (provider : Provider) (tickers : dict string)
  : M DataFrame :=
  let! data := fetch_rows provider tickers [] in
  ret (DataFrame_new data).

(** [{k: bank_nifty_tickers[k] for k in selected_companies}], with the
    entries gathered so far in [acc]. *)
Fixpoint select_tickers (selected_companies : list string)
  (acc : dict string) : result (dict string) :=
  match selected_companies with
  | [] => Ok acc
  | k :: rest =>
      let? symbol := dict_get bank_nifty_tickers k in
      select_tickers rest (dict_set acc k symbol)
  end.

(** [df[(df["ROE (%)"] >= min_roe) & (df["P/E Ratio"] <= max_pe)]]. *)
Definition filter_df (df : DataFrame) (min_roe max_pe : Z)
  : result DataFrame :=
  let? roe := getitem df "ROE (%)" in
  let? roe_ok := compare_scalar ge roe min_roe in
  let? pe := getitem df "P/E Ratio" in
  let? pe_ok := compare_scalar le pe max_pe in
  Ok (getitem_mask df (series_and roe_ok pe_ok)).

(** The "Main Data" block: restrict the directory, fetch, filter. *)
Definition main_data (provider : Provider) (selected_companies : list string)
  (min_roe max_pe : Z) : M DataFrame :=
  let! filtered_tickers := lift (select_tickers selected_companies []) in
  let! df := fetch_data provider filtered_tickers in
  lift (filter_df df min_roe max_pe).

(** One bar chart per row of the filtered frame: labels, heights, title. *)
Record Chart : Type := {
  bar_labels : list string;
  bar_heights : list number;
  title : string
}.

Definition charts (df : DataFrame) : list Chart :=
  map (fun row =>
         {| bar_labels := ["Current"; "High"; "Low"];
            bar_heights :=
              [Current_Price row; High_52_Week row; Low_52_Week row];
            title := (Company row ++ " " ++ glyph (Trend_glyph row))%string |})
      (rows df).

(** The main block followed by the chart loop: the filtered frame and its
    charts.  The styled table view that the page shows between the two
    ([st.dataframe(style_df(df))]) is not part of this function. *)
Definition dashboard (provider : Provider) (selected_companies : list string)
  (min_roe max_pe : Z) : M (DataFrame * list Chart) :=
  let! df := main_data provider selected_companies min_roe max_pe in
  ret (df, charts df).

(** The test a row has to pass to stay in the frame. *)
Definition keeps (min_roe max_pe : Z) (r : Row) : bool :=
  ge (ROE_pct r) (PyInt min_roe)
  && match PE_Ratio r with
     | Some pe => le pe (PyInt max_pe)
     | None => false
     end.

(** What one company contributes to the table: the provider's answer for
    its symbol, normalized. *)
Definition row_for (provider : Provider) (item : string * string)
  : result Row :=
  let? info := provider (snd item) in
  make_row (fst item) info.

(** ** The side bar *)

(** A name offered by the multiselect: a key of the directory. *)
Definition in_directory (name : string) : bool :=
  existsb (String.eqb name) (map fst bank_nifty_tickers).

(** What [st.sidebar.multiselect] can return: offered names, each at most
    once. *)
Definition multiselect_value (selected_companies : list string) : Prop :=
  NoDup selected_companies
  /\ forallb in_directory selected_companies = true.

(** What [st.sidebar.slider(label, lo, hi, default)] can return. *)
Definition slider_value (lo hi v : Z) : bool := Z.leb lo v && Z.leb v hi.

(** ** Quotes whose numbers convert to floats *)

(** An [int] that binary64 holds exactly, or any [float]. *)
Definition small_number (v : number) : bool :=
  match v with
  | PyInt z => Z.ltb (Z.abs z) (2 ^ 53)
  | PyFloat _ => true
  end.

Definition small_field (field : option number) : bool :=
  match field with
  | Some v => small_number v
  | None => true
  end.

(** The fields the normalizer multiplies or divides by a float are absent,
    floats, or integers below 2^53 in magnitude. *)
Definition small_quote (info : Info) : bool :=
  small_field (fiftyTwoWeekHigh info)
  && small_field (fiftyTwoWeekLow info)
  && small_field (marketCap info).

(** ** Rounding to two decimal places, as the spec words it

    [n] hundredths is a decimal with two places nearest to the magnitude
    [m * 2^e]: the two differ by at most half a hundredth. *)
Definition rounded_to_2_places (m : positive) (e n : Z) : Prop :=
  2 * Z.abs (100 * Zpos m * 2 ^ Z.max e 0 - n * 2 ^ Z.max (- e) 0)
  <= 2 ^ Z.max (- e) 0.

(** [m' * 2^e'] is a double next to the decimal [n / 100]: its mantissa has
    53 bits, and it differs from [n / 100] by at most half a unit in its
    last place, [2^e' / 2]. *)
Definition nearest_double_to_hundredths (n : Z) (m' : positive) (e' : Z)
  : Prop :=
  2 ^ 52 <= Zpos m' < 2 ^ 53
  /\ 2 * Z.abs (100 * Zpos m' * 2 ^ Z.max e' 0 - n * 2 ^ Z.max (- e') 0)
     <= 100 * 2 ^ Z.max e' 0.

(** [y] is [v] rounded to two decimal places.  An integer is unchanged.  A
    finite float of sign [s] and magnitude [m * 2^e] has a nearest number
    [n] of hundredths: when [n] is zero, [y] is the zero of sign [s];
    otherwise [y] is a double of sign [s] next to [n / 100].  A zero, an
    infinity and not-a-number are unchanged. *)
Definition rounded_2dp (v y : number) : Prop :=
  match v with
  | PyInt z => y = PyInt z
  | PyFloat x =>
      exists f,
        y = PyFloat f
        /\ match Prim2SF x with
           | S754_finite s m e =>
               exists n,
                 rounded_to_2_places m e n
                 /\ match n with
                    | Zpos _ =>
                        exists m' e',
                          Prim2SF f = S754_finite s m' e'
                          /\ nearest_double_to_hundredths n m' e'
                    | _ => Prim2SF f = S754_zero s
                    end
           | other => Prim2SF f = other
           end
  end.

(** ** Sample data *)

(** The row of a company for which the provider has no data. *)
Definition zero_row (name : string) : Row :=
  {| Company := name;
     Current_Price := PyInt 0;
     High_52_Week := PyInt 0;
     Low_52_Week := PyInt 0;
     Trend_glyph := Flat;
     Market_Cap_Cr := PyFloat 0;
     PE_Ratio := None;
     ROE_pct := PyInt 0 |}.

(** The quote of the spec's example, with the numbers as floats. *)
Definition sample_quote : Info :=
  {| currentPrice := Some (PyFloat 1500);
     fiftyTwoWeekHigh := Some (PyFloat 1600);
     fiftyTwoWeekLow := Some (PyFloat 1000);
     marketCap := Some (PyFloat 3.5e12);
     trailingPE := Some (PyFloat 18.2);
     returnOnEquity := Some (PyFloat 0.17) |}.

(** The same quote with prices and market capitalization as integers. *)
Definition sample_quote_int : Info :=
  {| currentPrice := Some (PyInt 1500);
     fiftyTwoWeekHigh := Some (PyInt 1600);
     fiftyTwoWeekLow := Some (PyInt 1000);
     marketCap := Some (PyInt 3500000000000);
     trailingPE := Some (PyFloat 18.2);
     returnOnEquity := Some (PyFloat 0.17) |}.

Definition sample_row (name : string) : Row :=
  {| Company := name;
     Current_Price := PyFloat 1500;
     High_52_Week := PyFloat 1600;
     Low_52_Week := PyFloat 1000;
     Trend_glyph := Flat;
     Market_Cap_Cr := PyFloat 350000;
     PE_Ratio := Some (PyFloat 18.2);
     ROE_pct := PyFloat 17 |}.

Definition sample_row_int (name : string) : Row :=
  {| Company := name;
     Current_Price := PyInt 1500;
     High_52_Week := PyInt 1600;
     Low_52_Week := PyInt 1000;
     Trend_glyph := Flat;
     Market_Cap_Cr := PyFloat 350000;
     PE_Ratio := Some (PyFloat 18.2);
     ROE_pct := PyFloat 17 |}.

(** A provider with data for HDFC Bank only. *)
Definition hdfc_only : Provider :=
  fun symbol =>
    if String.eqb symbol "HDFCBANK.NS" then Ok sample_quote else Ok no_data.

(** The same answers for the symbols of the directory; any other symbol
    is refused. *)
Definition hdfc_only_strict : Provider :=
  fun symbol =>
    if String.eqb symbol "HDFCBANK.NS" then Ok sample_quote
    else if existsb (String.eqb symbol) (map snd bank_nifty_tickers)
         then Ok no_data
         else Raise (ProviderError symbol).

(** A provider whose request for Axis Bank fails. *)
Definition axis_unreachable : Provider :=
  fun symbol =>
    if String.eqb symbol "AXISBANK.NS" then Raise (ProviderError symbol)
    else Ok sample_quote.

(** The spec's example: P/E absent, ROE (%) 20.00. *)
Definition row_without_pe : Row :=
  {| Company := "HDFC Bank";
     Current_Price := PyFloat 1500;
     High_52_Week := PyFloat 1600;
     Low_52_Week := PyFloat 1000;
     Trend_glyph := Flat;
     Market_Cap_Cr := PyFloat 350000;
     PE_Ratio := None;
     ROE_pct := PyFloat 20 |}.

(** A quote near its high that is also within 5% of its low. *)
Definition narrow_range_quote : Info :=
  {| currentPrice := Some (PyFloat 99);
     fiftyTwoWeekHigh := Some (PyFloat 100);
     fiftyTwoWeekLow := Some (PyFloat 98);
     marketCap := Some (PyInt 3500000000000);
     trailingPE := Some (PyFloat 18.2);
     returnOnEquity := Some (PyFloat 0.17) |}.

(** * Properties *)

(** A successful sequence of steps: every step returned. *)
Ltac step_ok H :=
  match type of H with
  | rbind ?m _ = Ok _ =>
      let e := fresh "e" in
      destruct m as [? | e]; [cbn [rbind] in H | discriminate H]
  end.

(** ** The filter, row by row *)

Lemma cell_of_roe (r : Row) : cell_of r "ROE (%)" = CNum (ROE_pct r).
Proof. reflexivity. Qed.

Lemma cell_of_pe (r : Row) :
  cell_of r "P/E Ratio"
  = match PE_Ratio r with Some v => CNum v | None => CNone end.
Proof. reflexivity. Qed.

Lemma compare_scalar_roe (rs : list Row) (t : Z) :
  compare_scalar ge (map (fun r => cell_of r "ROE (%)") rs) t
  = Ok (map (fun r => ge (ROE_pct r) (PyInt t)) rs).
Proof.
  unfold compare_scalar.
  induction rs as [| r rs IH]; [reflexivity |].
  cbn [map map_result]. rewrite cell_of_roe. cbn [rbind].
  rewrite IH. reflexivity.
Qed.

Lemma compare_scalar_pe (rs : list Row) (t : Z) :
  compare_scalar le (map (fun r => cell_of r "P/E Ratio") rs) t
  = Ok (map (fun r => match PE_Ratio r with
                      | Some pe => le pe (PyInt t)
                      | None => false
                      end) rs).
Proof.
  unfold compare_scalar.
  induction rs as [| r rs IH]; [reflexivity |].
  cbn [map map_result]. rewrite cell_of_pe.
  destruct (PE_Ratio r); cbn [rbind]; rewrite IH; reflexivity.
Qed.

Lemma mask_is_filter {A : Type} (f g : A -> bool) (l : list A) :
  map fst (filter snd (combine l (series_and (map f l) (map g l))))
  = filter (fun a => f a && g a) l.
Proof.
  unfold series_and.
  induction l as [| a l IH]; [reflexivity |].
  cbn [map combine filter fst snd].
  destruct (f a && g a); cbn [map fst]; rewrite IH; reflexivity.
Qed.

(** A frame that has the two columns is filtered row by row with [keeps]. *)
Lemma filter_df_rows (df : DataFrame) (min_roe max_pe : Z) :
  existsb (String.eqb "ROE (%)") (columns df) = true ->
  existsb (String.eqb "P/E Ratio") (columns df) = true ->
  filter_df df min_roe max_pe
  = Ok {| columns := columns df;
          rows := filter (keeps min_roe max_pe) (rows df) |}.
Proof.
  intros Hroe Hpe. unfold filter_df, getitem.
  rewrite Hroe. cbn [rbind]. rewrite compare_scalar_roe. cbn [rbind].
  rewrite Hpe. cbn [rbind]. rewrite compare_scalar_pe. cbn [rbind].
  unfold getitem_mask. rewrite mask_is_filter. reflexivity.
Qed.

(** The filter returns a frame only when both columns exist. *)
Lemma filter_df_inv (df out : DataFrame) (min_roe max_pe : Z) :
  filter_df df min_roe max_pe = Ok out ->
  existsb (String.eqb "ROE (%)") (columns df) = true
  /\ existsb (String.eqb "P/E Ratio") (columns df) = true
  /\ out = {| columns := columns df;
              rows := filter (keeps min_roe max_pe) (rows df) |}.
Proof.
  intros H.
  destruct (existsb (String.eqb "ROE (%)") (columns df)) eqn:Hroe.
  - destruct (existsb (String.eqb "P/E Ratio") (columns df)) eqn:Hpe.
    + rewrite (filter_df_rows df min_roe max_pe Hroe Hpe) in H.
      injection H as <-. auto.
    + unfold filter_df, getitem in H. rewrite Hroe in H. cbn [rbind] in H.
      rewrite compare_scalar_roe in H. cbn [rbind] in H.
      rewrite Hpe in H. discriminate H.
  - unfold filter_df, getitem in H. rewrite Hroe in H. discriminate H.
Qed.

Lemma keeps_pe_present (min_roe max_pe : Z) (r : Row) :
  keeps min_roe max_pe r = true ->
  ge (ROE_pct r) (PyInt min_roe) = true
  /\ exists pe, PE_Ratio r = Some pe /\ le pe (PyInt max_pe) = true.
Proof.
  unfold keeps. intros H. apply andb_prop in H as [Hroe Hpe].
  split; [exact Hroe |].
  destruct (PE_Ratio r) as [pe |]; [| discriminate Hpe].
  exists pe. auto.
Qed.

Lemma filter_twice {A : Type} (f : A -> bool) (l : list A) :
  filter f (filter f l) = filter f l.
Proof.
  induction l as [| a l IH]; [reflexivity |].
  cbn [filter]. destruct (f a) eqn:Hfa; [| exact IH].
  cbn [filter]. rewrite Hfa, IH. reflexivity.
Qed.

(** ** The restricted directory *)

Lemma dict_get_In {V : Type} (d : dict V) (k : string) (v : V) :
  dict_get d k = Ok v -> In (k, v) d.
Proof.
  induction d as [| [k' v'] d IH]; cbn [dict_get]; [discriminate |].
  destruct (String.eqb_spec k' k) as [-> | _].
  - intros [= ->]. left. reflexivity.
  - intros H. right. exact (IH H).
Qed.

Lemma dict_set_In {V : Type} (d : dict V) (k : string) (v : V)
  (k' : string) (v' : V) :
  In (k', v') (dict_set d k v) -> In (k', v') d \/ (k', v') = (k, v).
Proof.
  induction d as [| [k0 v0] d IH]; cbn [dict_set].
  - intros [H | []]. right. symmetry. exact H.
  - destruct (String.eqb_spec k0 k) as [-> | _].
    + intros [H | H]; [right; symmetry; exact H | left; right; exact H].
    + intros [H | H]; [left; left; exact H |].
      destruct (IH H) as [H' | H']; [left; right; exact H' | right; exact H'].
Qed.

(** Every entry of the restricted directory is an entry of the directory
    under a selected name. *)
Lemma select_tickers_In (selected : list string) :
  forall (acc out : dict string),
    select_tickers selected acc = Ok out ->
    forall name symbol,
      In (name, symbol) out ->
      In (name, symbol) acc
      \/ (In name selected /\ In (name, symbol) bank_nifty_tickers).
Proof.
  induction selected as [| k rest IH]; intros acc out H name symbol Hin.
  - cbn in H. injection H as <-. left. exact Hin.
  - cbn [select_tickers] in H.
    destruct (dict_get bank_nifty_tickers k) as [s | e] eqn:Hget;
      [| discriminate H].
    cbn [rbind] in H.
    destruct (IH _ _ H name symbol Hin) as [Hacc | [Hsel Hdir]].
    + destruct (dict_set_In _ _ _ _ _ Hacc) as [Hold | Hnew].
      * left. exact Hold.
      * injection Hnew as -> ->. right. split; [left; reflexivity |].
        apply dict_get_In. exact Hget.
    + right. split; [right; exact Hsel | exact Hdir].
Qed.

(** ** The fetch loop *)

Lemma make_row_Company (name : string) (info : Info) (row : Row) :
  make_row name info = Ok row -> Company row = name.
Proof.
  unfold make_row. intros H. repeat step_ok H.
  injection H as <-. reflexivity.
Qed.

Lemma fetch_rows_cons (provider : Provider) (name symbol : string)
  (rest : dict string) (data : list Row) (log : list string) :
  fetch_rows provider ((name, symbol) :: rest) data log
  = match row_for provider (name, symbol) with
    | Ok row =>
        fetch_rows provider rest (data ++ [row]) (log ++ [symbol])
    | Raise e => (Raise e, (log ++ [symbol]))
    end.
Proof.
  cbn [fetch_rows]. unfold bind, ticker_info, lift, row_for. cbn [fst snd].
  destruct (provider symbol) as [info | e]; cbn [rbind]; [| reflexivity].
  destruct (make_row name info); reflexivity.
Qed.

(** A loop that returns has asked for every symbol once, in order, and has
    appended one row per company. *)
Lemma fetch_rows_ok (provider : Provider) (items : dict string) :
  forall (data out : list Row) (log log' : list string),
    fetch_rows provider items data log = (Ok out, log') ->
    log' = (log ++ map snd items)
    /\ exists new,
         out = (data ++ new)
         /\ Forall2 (fun item row => row_for provider item = Ok row) items new.
Proof.
  induction items as [| [name symbol] rest IH]; intros data out log log' H.
  - cbn in H. injection H as <- <-. split.
    + cbn. rewrite app_nil_r. reflexivity.
    + exists []. split; [rewrite app_nil_r; reflexivity | constructor].
  - rewrite fetch_rows_cons in H.
    destruct (row_for provider (name, symbol)) as [row | e] eqn:Hrow;
      [| discriminate H].
    destruct (IH _ _ _ _ H) as [Hlog [new [Hout Hall]]].
    split.
    + rewrite Hlog. cbn [map snd]. rewrite <- app_assoc. reflexivity.
    + exists (row :: new). split.
      * rewrite Hout, <- app_assoc. reflexivity.
      * constructor; assumption.
Qed.

(** Conversely, when every company has a row the loop returns them all. *)
Lemma fetch_rows_all (provider : Provider) (items : dict string) :
  forall (new data : list Row) (log : list string),
    Forall2 (fun item row => row_for provider item = Ok row) items new ->
    fetch_rows provider items data log
    = (Ok (data ++ new), (log ++ map snd items)).
Proof.
  induction items as [| [name symbol] rest IH]; intros new data log Hall.
  - inversion Hall; subst. cbn. rewrite !app_nil_r. reflexivity.
  - inversion Hall as [| item row items' new' Hrow Hrest]; subst.
    rewrite fetch_rows_cons, Hrow, (IH _ _ _ Hrest).
    cbn [map snd]. rewrite <- !app_assoc. reflexivity.
Qed.

(** The first company whose request or row raises stops the loop. *)
Lemma fetch_rows_raise (provider : Provider) (before : dict string) :
  forall (done : list Row) (item : string * string) (after : dict string)
         (e : PyExn) (data : list Row) (log : list string),
    Forall2 (fun item row => row_for provider item = Ok row) before done ->
    row_for provider item = Raise e ->
    fetch_rows provider (before ++ item :: after) data log
    = (Raise e, (log ++ map snd before ++ [snd item])).
Proof.
  induction before as [| [name symbol] rest IH];
    intros done item after e data log Hall Hitem.
  - destruct item as [name symbol]. cbn [app].
    rewrite fetch_rows_cons, Hitem. reflexivity.
  - inversion Hall as [| item' row items' done' Hrow Hrest]; subst.
    cbn [app]. rewrite fetch_rows_cons, Hrow.
    rewrite (IH _ _ _ _ _ _ Hrest Hitem).
    cbn [map snd app]. rewrite <- app_assoc. reflexivity.
Qed.

(** The loop only looks at the provider's answers for the symbols it is
    given. *)
Lemma fetch_rows_ext (p1 p2 : Provider) (items : dict string) :
  (forall name symbol, In (name, symbol) items -> p1 symbol = p2 symbol) ->
  forall data log, fetch_rows p1 items data log = fetch_rows p2 items data log.
Proof.
  induction items as [| [name symbol] rest IH]; intros Hagree data log.
  - reflexivity.
  - rewrite !fetch_rows_cons. unfold row_for. cbn [fst snd].
    rewrite (Hagree name symbol (or_introl eq_refl)).
    destruct (let? info := p2 symbol in make_row name info); [| reflexivity].
    apply IH. intros n s Hin. apply (Hagree n s). right. exact Hin.
Qed.

(** What a run of the main block that returns a frame went through. *)
Lemma main_data_ok (provider : Provider) (selected : list string)
  (min_roe max_pe : Z) (log log' : list string) (out : DataFrame) :
  main_data provider selected min_roe max_pe log = (Ok out, log') ->
  exists tickers data,
    select_tickers selected [] = Ok tickers
    /\ fetch_rows provider tickers [] log = (Ok data, log')
    /\ filter_df (DataFrame_new data) min_roe max_pe = Ok out.
Proof.
  unfold main_data, fetch_data, bind, lift, ret. intros H.
  destruct (select_tickers selected []) as [tickers | e]; [| discriminate H].
  destruct (fetch_rows provider tickers [] log) as [[data | e] log1] eqn:Hfetch;
    [| discriminate H].
  injection H as H <-. exists tickers, data. auto.
Qed.

(** ** The maximum-P/E test and a missing P/E *)

(** C1, as stated, fails: a row whose P/E is absent and whose ROE (%) is
    20.00 is in the table before the filter with minimum ROE 10 and maximum
    P/E 25, and is not in the table after it. *)
Lemma absent_pe_row_is_dropped :
  ~ (forall (df out : DataFrame) (min_roe max_pe : Z) (r : Row),
       filter_df df min_roe max_pe = Ok out ->
       In r (rows df) ->
       PE_Ratio r = None ->
       ge (ROE_pct r) (PyInt min_roe) = true ->
       In r (rows out)).
Proof.
  intros claim.
  apply (claim (DataFrame_new [row_without_pe])
               {| columns := column_names; rows := [] |}
               10 25 row_without_pe).
  - vm_compute. reflexivity.
  - left. reflexivity.
  - reflexivity.
  - vm_compute. reflexivity.
Qed.

(** C1, amended: for every assembled table and every minimum ROE and maximum
    P/E, a record whose P/E is absent fails the maximum-P/E test: it is never
    retained in the filtered table, whatever its ROE. *)
Theorem filter_df_drops_absent_pe (df out : DataFrame) (min_roe max_pe : Z)
  (r : Row) :
  filter_df df min_roe max_pe = Ok out ->
  PE_Ratio r = None ->
  ~ In r (rows out).
Proof.
  intros Hfilter Hpe Hin.
  destruct (filter_df_inv _ _ _ _ Hfilter) as [_ [_ ->]].
  cbn [rows] in Hin. apply filter_In in Hin as [_ Hkeep].
  apply keeps_pe_present in Hkeep as [_ [pe [Hsome _]]].
  congruence.
Qed.

Lemma filter_df_drops_absent_pe_witness :
  ~ In row_without_pe
      (rows {| columns := column_names; rows := @nil Row |}).
Proof.
  apply (filter_df_drops_absent_pe
           (DataFrame_new [row_without_pe])
           {| columns := column_names; rows := [] |} 10 25 row_without_pe).
  - vm_compute. reflexivity.
  - reflexivity.
Defined.

(** ** An empty selection *)

(** C2: with no company selected the script stops at the filter expression:
    [fetch_data] builds a frame without columns and [df["ROE (%)"]] raises
    [KeyError], so neither the table, nor a chart, nor the workbook is
    produced, and no request is sent.  A selection whose rows are all
    filtered out does reach the charts, with an empty table. *)
Theorem empty_selection_raises_KeyError (provider : Provider)
  (min_roe max_pe : Z) (log : list string) :
  main_data provider [] min_roe max_pe log = (Raise (KeyError "ROE (%)"), log)
  /\ dashboard provider [] min_roe max_pe log
     = (Raise (KeyError "ROE (%)"), log)
  /\ dashboard hdfc_only ["Axis Bank"] 10 25 []
     = (Ok ({| columns := column_names; rows := [] |}, []), ["AXISBANK.NS"]).
Proof. repeat split; vm_compute; reflexivity. Qed.

(** ** The trend *)

(** C3, as stated, fails: with current price, 52-week high and 52-week low
    all zero (the defaults of a quote without data) the glyph is the
    in-between one, not the up one. *)
Lemma zero_quote_trend_is_not_up :
  ~ (forall current high low : number,
       eq current (PyInt 0) = true ->
       eq high (PyInt 0) = true ->
       eq low (PyInt 0) = true ->
       trend_of current high low = Ok Up).
Proof.
  intros claim.
  specialize (claim (PyInt 0) (PyInt 0) (PyInt 0) eq_refl eq_refl eq_refl).
  vm_compute in claim. discriminate claim.
Qed.

Lemma make_row_trend (name : string) (info : Info) (row : Row) :
  make_row name info = Ok row ->
  trend_of (get (currentPrice info) (PyInt 0))
           (get (fiftyTwoWeekHigh info) (PyInt 0))
           (get (fiftyTwoWeekLow info) (PyInt 0))
  = Ok (Trend_glyph row).
Proof.
  unfold make_row. intros H. repeat step_ok H.
  injection H as <-. reflexivity.
Qed.

(** The numbers Python finds equal to [0]: the [int] zero and the two
    floating-point zeros. *)
Lemma eq_zero_cases (v : number) :
  eq v (PyInt 0) = true ->
  v = PyInt 0 \/ v = PyFloat 0 \/ v = PyFloat (-0).
Proof.
  unfold eq, compare. destruct v as [z | f]; cbn [exact].
  - cbn [Z.min Z.sub Z.opp Z.add Z.pow Z.pow_pos Pos.iter Z.mul].
    rewrite Z.mul_1_r. destruct z; cbn; try discriminate. auto.
  - pose proof (SF2Prim_Prim2SF f) as Hf.
    destruct (Prim2SF f) as [s | s | | s m e]; try discriminate.
    + intros _. rewrite <- Hf. destruct s; cbn; auto.
    + destruct s; discriminate.
    + intros H. exfalso.
      assert (Hpow : 0 < 2 ^ (e - Z.min e 0))
        by (apply Z.pow_pos_nonneg; lia).
      destruct (Z.compare_spec (cond_Zopp s (Z.pos m) * 2 ^ (e - Z.min e 0))
                               (0 * 2 ^ (0 - Z.min e 0))) as [Heq | |];
        try discriminate H.
      rewrite Z.mul_0_l in Heq. destruct s; cbn [cond_Zopp] in Heq; nia.
Qed.

(** C3, amended: for every quote whose current price, 52-week high and
    52-week low are all zero, the normalizer assigns the in-between trend
    (Flat): both tests are strict, so neither the Up nor the Down branch is
    taken. *)
Theorem zero_quote_trend_is_flat (current high low : number) :
  eq current (PyInt 0) = true ->
  eq high (PyInt 0) = true ->
  eq low (PyInt 0) = true ->
  trend_of current high low = Ok Flat.
Proof.
  intros Hc Hh Hl.
  destruct (eq_zero_cases _ Hc) as [-> | [-> | ->]];
    destruct (eq_zero_cases _ Hh) as [-> | [-> | ->]];
    destruct (eq_zero_cases _ Hl) as [-> | [-> | ->]];
    vm_compute; reflexivity.
Qed.

Lemma zero_quote_trend_is_flat_witness :
  trend_of (PyInt 0) (PyFloat 0) (PyFloat (-0)) = Ok Flat.
Proof.
  apply zero_quote_trend_is_flat; vm_compute; reflexivity.
Defined.



(** ** The filtered table *)

Lemma DataFrame_new_rows (data : list Row) : rows (DataFrame_new data) = data.
Proof. reflexivity. Qed.

Lemma Forall2_In_right {A B : Type} (P : A -> B -> Prop)
  (la : list A) (lb : list B) (b : B) :
  Forall2 P la lb -> In b lb -> exists a, In a la /\ P a b.
Proof.
  induction 1 as [| a0 b0 la lb Hab _ IH]; intros Hin.
  - destruct Hin.
  - destruct Hin as [<- | Hin].
    + exists a0. split; [left; reflexivity | exact Hab].
    + destruct (IH Hin) as [a [Ha HP]]. exists a. split; [right |]; assumption.
Qed.

(** The rows of the table the main block returns: fetched for an entry of
    the directory under a selected name, and passing the row test. *)
Lemma main_data_rows (provider : Provider) (selected : list string)
  (min_roe max_pe : Z) (log log' : list string) (out : DataFrame) (r : Row) :
  main_data provider selected min_roe max_pe log = (Ok out, log') ->
  In r (rows out) ->
  keeps min_roe max_pe r = true
  /\ exists symbol,
       In (Company r) selected
       /\ In (Company r, symbol) bank_nifty_tickers
       /\ row_for provider (Company r, symbol) = Ok r.
Proof.
  intros Hmain Hin.
  destruct (main_data_ok _ _ _ _ _ _ _ Hmain)
    as [tickers [data [Hsel [Hfetch Hfilter]]]].
  destruct (filter_df_inv _ _ _ _ Hfilter) as [_ [_ ->]].
  cbn [rows] in Hin. apply filter_In in Hin as [Hdata Hkeep].
  split; [exact Hkeep |].
  destruct (fetch_rows_ok _ _ _ _ _ _ Hfetch) as [_ [new [-> Hall]]].
  cbn [app DataFrame_new rows] in Hdata.
  destruct (Forall2_In_right _ _ _ _ Hall Hdata) as [[name symbol] [Hitem Hrow]].
  assert (Hname : Company r = name).
  { unfold row_for in Hrow. cbn [fst snd] in Hrow.
    destruct (provider symbol) as [info | e]; [| discriminate Hrow].
    exact (make_row_Company _ _ _ Hrow). }
  destruct (select_tickers_In _ _ _ Hsel name symbol Hitem)
    as [[] | [Hs Hd]].
  exists symbol. rewrite Hname. auto.
Qed.

(** C5: every record of the table the pipeline produces, for any provider
    and any criteria, has its company among the selected companies, has
    ROE (%) at least the minimum ROE, and has a P/E that is absent or at most
    the maximum P/E. *)
Theorem result_table_invariant (provider : Provider)
  (selected_companies : list string) (min_roe max_pe : Z)
  (log log' : list string) (out : DataFrame) (r : Row) :
  main_data provider selected_companies min_roe max_pe log = (Ok out, log') ->
  In r (rows out) ->
  In (Company r) selected_companies
  /\ ge (ROE_pct r) (PyInt min_roe) = true
  /\ (PE_Ratio r = None
      \/ exists pe, PE_Ratio r = Some pe /\ le pe (PyInt max_pe) = true).
Proof.
  intros Hmain Hin.
  destruct (main_data_rows _ _ _ _ _ _ _ _ Hmain Hin)
    as [Hkeep [symbol [Hsel _]]].
  apply keeps_pe_present in Hkeep as [Hroe Hpe].
  auto.
Qed.

(** C9: after the filter every retained row has a P/E that is present and
    at most the maximum P/E; no row with an absent P/E is in the table that
    the table view, the charts and the export receive. *)
Theorem result_table_pe_present (provider : Provider)
  (selected_companies : list string) (min_roe max_pe : Z)
  (log log' : list string) (out : DataFrame) (shown : list Chart) :
  dashboard provider selected_companies min_roe max_pe log
  = (Ok (out, shown), log') ->
  main_data provider selected_companies min_roe max_pe log = (Ok out, log')
  /\ shown = charts out
  /\ forall r, In r (rows out) ->
       exists pe, PE_Ratio r = Some pe /\ le pe (PyInt max_pe) = true.
Proof.
  unfold dashboard, bind, ret. intros H.
  destruct (main_data provider selected_companies min_roe max_pe log)
    as [[df | e] log1] eqn:Hmain; [| discriminate H].
  injection H as <- <- <-.
  split; [reflexivity |]. split; [reflexivity |].
  intros r Hin.
  destruct (main_data_rows _ _ _ _ _ _ _ _ Hmain Hin) as [Hkeep _].
  apply keeps_pe_present in Hkeep as [_ Hpe]. exact Hpe.
Qed.

(** C7: the filter is idempotent: filtering a table that the filter
    returned, with the same criteria, returns that table. *)
Theorem filter_df_idempotent (df out : DataFrame) (min_roe max_pe : Z) :
  filter_df df min_roe max_pe = Ok out ->
  filter_df out min_roe max_pe = Ok out.
Proof.
  intros H.
  destruct (filter_df_inv _ _ _ _ H) as [Hroe [Hpe ->]].
  rewrite filter_df_rows by assumption.
  cbn [columns rows]. rewrite filter_twice. reflexivity.
Qed.

(** C10: the result of the pipeline is a function of the provider's answers
    for the symbols of the directory and of the criteria: two runs against
    providers that answer those symbols alike, with the same selection and
    sliders, return the same table (rows, values and order), raise the same
    exception, and send the same requests. *)
Theorem main_data_deterministic (p1 p2 : Provider)
  (selected_companies : list string) (min_roe max_pe : Z)
  (log : list string) :
  (forall name symbol,
     In (name, symbol) bank_nifty_tickers -> p1 symbol = p2 symbol) ->
  main_data p1 selected_companies min_roe max_pe log
  = main_data p2 selected_companies min_roe max_pe log.
Proof.
  intros Hagree. unfold main_data, fetch_data, bind, lift.
  destruct (select_tickers selected_companies []) as [tickers | e] eqn:Hsel;
    [| reflexivity].
  rewrite (fetch_rows_ext p1 p2 tickers); [reflexivity |].
  intros name symbol Hin.
  destruct (select_tickers_In _ _ _ Hsel name symbol Hin) as [[] | [_ Hdir]].
  exact (Hagree name symbol Hdir).
Qed.

Lemma result_table_invariant_witness :
  In "HDFC Bank" ["Axis Bank"; "HDFC Bank"]
  /\ ge (PyFloat 17) (PyInt 10) = true
  /\ (Some (PyFloat 18.2) = None
      \/ exists pe, Some (PyFloat 18.2) = Some pe /\ le pe (PyInt 25) = true).
Proof.
  apply (result_table_invariant hdfc_only ["Axis Bank"; "HDFC Bank"] 10 25
           [] ["AXISBANK.NS"; "HDFCBANK.NS"]
           {| columns := column_names; rows := [sample_row "HDFC Bank"] |}
           (sample_row "HDFC Bank")).
  - vm_compute. reflexivity.
  - left. reflexivity.
Defined.

Lemma result_table_pe_present_witness :
  exists pe,
    PE_Ratio (sample_row "HDFC Bank") = Some pe /\ le pe (PyInt 25) = true.
Proof.
  apply (proj2 (proj2 (result_table_pe_present hdfc_only
           ["Axis Bank"; "HDFC Bank"] 10 25
           [] ["AXISBANK.NS"; "HDFCBANK.NS"]
           {| columns := column_names; rows := [sample_row "HDFC Bank"] |}
           (charts {| columns := column_names;
                      rows := [sample_row "HDFC Bank"] |})
           ltac:(vm_compute; reflexivity)))).
  left. reflexivity.
Defined.

Lemma filter_df_idempotent_witness :
  filter_df {| columns := column_names; rows := [sample_row "HDFC Bank"] |}
            10 25
  = Ok {| columns := column_names; rows := [sample_row "HDFC Bank"] |}.
Proof.
  apply (filter_df_idempotent
           (DataFrame_new [zero_row "Axis Bank"; sample_row "HDFC Bank"])).
  vm_compute. reflexivity.
Defined.

Lemma main_data_deterministic_witness :
  main_data hdfc_only ["Axis Bank"; "HDFC Bank"] 10 25 []
  = main_data hdfc_only_strict ["Axis Bank"; "HDFC Bank"] 10 25 [].
Proof.
  apply main_data_deterministic.
  intros name symbol Hin. cbn in Hin.
  repeat (destruct Hin as [Hin | Hin];
          [injection Hin as <- <-; vm_compute; reflexivity |]).
  destruct Hin.
Defined.

(** ** Scaling and rounding *)

Lemma round_half_even_nearest (num den : Z) :
  0 < den -> 2 * Z.abs (num - round_half_even num den * den) <= den.
Proof.
  intros Hden. unfold round_half_even.
  pose proof (Z_div_mod num den (Z.lt_gt _ _ Hden)) as Hdiv.
  destruct (Z.div_eucl num den) as [q r]. destruct Hdiv as [-> Hr].
  destruct (Z.compare_spec (2 * r) den) as [Heq | Hlt | Hgt].
  - destruct (Z.even q); lia.
  - lia.
  - lia.
Qed.

Lemma digits2_pos_bounds (p : positive) :
  2 ^ (Zpos (digits2_pos p) - 1) <= Zpos p < 2 ^ Zpos (digits2_pos p).
Proof.
  induction p as [p IH | p IH |]; cbn [digits2_pos].
  - rewrite Pos2Z.inj_succ.
    replace (Z.succ (Z.pos (digits2_pos p)) - 1)
      with (Z.succ (Z.pos (digits2_pos p) - 1)) by lia.
    rewrite !Z.pow_succ_r by lia. lia.
  - rewrite Pos2Z.inj_succ.
    replace (Z.succ (Z.pos (digits2_pos p)) - 1)
      with (Z.succ (Z.pos (digits2_pos p) - 1)) by lia.
    rewrite !Z.pow_succ_r by lia. lia.
  - cbn. lia.
Qed.

(** The number of binary digits of a positive number, from its range. *)
Lemma digits_of_range (q : positive) (k : Z) :
  2 ^ (k - 1) <= Zpos q < 2 ^ k -> Zpos (digits2_pos q) = k.
Proof.
  intros [Hlo Hhi]. pose proof (digits2_pos_bounds q) as [Dlo Dhi].
  set (d := Zpos (digits2_pos q)) in *.
  assert (Hd : 0 < d) by (unfold d; lia).
  assert (Hk : 0 < k).
  { destruct (Z_lt_le_dec 0 k) as [H | H]; [exact H |]. exfalso.
    assert (2 ^ k <= 2 ^ 0) by (apply Z.pow_le_mono_r; lia).
    change (2 ^ 0) with 1 in *. lia. }
  destruct (Z.lt_trichotomy d k) as [H | [H | H]]; [exfalso | exact H | exfalso].
  - assert (2 ^ d <= 2 ^ (k - 1)) by (apply Z.pow_le_mono_r; lia). lia.
  - assert (2 ^ k <= 2 ^ (d - 1)) by (apply Z.pow_le_mono_r; lia). lia.
Qed.

(** One step of the right shift: halve, remember the bit shifted out, and
    whether anything was lost before. *)
Lemma shr_1_spec (m : Z) (r s : bool) :
  0 <= m ->
  shr_1 {| shr_m := m; shr_r := r; shr_s := s |}
  = {| shr_m := m / 2; shr_r := Z.odd m; shr_s := r || s |}.
Proof.
  intros Hm. destruct m as [| p | p]; [reflexivity | | lia].
  destruct p as [p | p |]; cbn [shr_1].
  - f_equal. rewrite Pos2Z.inj_xI. symmetry.
    rewrite Z.mul_comm, Z.add_comm. rewrite Z.div_add by lia. reflexivity.
  - f_equal. rewrite Pos2Z.inj_xO. symmetry.
    rewrite Z.mul_comm. apply Z.div_mul. lia.
  - reflexivity.
Qed.

Lemma loc_of_record_of_loc (m : Z) (l : location) :
  loc_of_shr_record (shr_record_of_loc m l) = l /\ shr_m (shr_record_of_loc m l) = m.
Proof. destruct l as [| []]; split; reflexivity. Qed.

Lemma shr_fexp_noshift (m : positive) (e : Z) (l : location) :
  Zpos (digits2_pos m) = 53 -> -1074 <= e ->
  shr_fexp prec emax (Zpos m) e l = (shr_record_of_loc (Zpos m) l, e).
Proof.
  intros Hd He. unfold shr_fexp. cbn [Zdigits2]. rewrite Hd.
  replace (fexp prec emax (53 + e) - e) with 0
    by (unfold fexp, SpecFloat.emin, prec, emax; lia).
  reflexivity.
Qed.

Lemma shr_fexp_oneshift (m : positive) (e : Z) (l : location) :
  Zpos (digits2_pos m) = 54 -> -1075 <= e ->
  shr_fexp prec emax (Zpos m) e l = (shr_1 (shr_record_of_loc (Zpos m) l), e + 1).
Proof.
  intros Hd He. unfold shr_fexp. cbn [Zdigits2]. rewrite Hd.
  replace (fexp prec emax (54 + e) - e) with 1
    by (unfold fexp, SpecFloat.emin, prec, emax; lia).
  reflexivity.
Qed.

Lemma round_nearest_even_range (m : Z) (l : location) :
  m <= round_nearest_even m l <= m + 1.
Proof.
  destruct l as [| []]; cbn [round_nearest_even]; try lia.
  destruct (Z.even m); lia.
Qed.

(** Rounding a quotient of 53 bits keeps it or moves it up by one, with a
    carry into the next binade when it reaches 2^53. *)
Lemma binary_round_aux_53 (s : bool) (q : positive) (e : Z) (l : location) :
  2 ^ 52 <= Zpos q < 2 ^ 53 -> -1074 <= e <= 970 ->
  exists m' e',
    binary_round_aux prec emax s (Zpos q) e l = S754_finite s m' e'
    /\ 2 ^ 52 <= Zpos m' < 2 ^ 53
    /\ ((e' = e /\ Zpos m' = round_nearest_even (Zpos q) l)
        \/ (e' = e + 1 /\ 2 * Zpos m' = round_nearest_even (Zpos q) l)).
Proof.
  intros Hq He.
  assert (Hd : Zpos (digits2_pos q) = 53) by (apply digits_of_range; exact Hq).
  unfold binary_round_aux. rewrite (shr_fexp_noshift q e l Hd) by lia.
  destruct (loc_of_record_of_loc (Zpos q) l) as [-> ->].
  pose proof (round_nearest_even_range (Zpos q) l) as Hr.
  destruct (round_nearest_even (Zpos q) l) as [| m1 | m1] eqn:Hm1; try lia.
  destruct (Z_lt_le_dec (Zpos m1) (2 ^ 53)) as [Hlt | Hge].
  - assert (Hd1 : Zpos (digits2_pos m1) = 53)
      by (apply digits_of_range; lia).
    rewrite (shr_fexp_noshift m1 e loc_Exact Hd1) by lia.
    cbn [shr_record_of_loc shr_m].
    replace (Z.leb e (emax - prec)) with true
      by (symmetry; apply Z.leb_le; unfold prec, emax; lia).
    exists m1, e. split; [reflexivity |]. split; [lia |]. left. auto.
  - assert (Heq : Zpos m1 = 2 ^ 53) by lia.
    assert (Hd1 : Zpos (digits2_pos m1) = 54)
      by (apply digits_of_range; rewrite Heq; cbn; lia).
    rewrite (shr_fexp_oneshift m1 e loc_Exact Hd1) by lia.
    cbn [shr_record_of_loc]. rewrite shr_1_spec by lia. cbn [shr_m].
    rewrite Heq. change (2 ^ 53 / 2) with (Zpos (2 ^ 52)%positive).
    replace (Z.leb (e + 1) (emax - prec)) with true
      by (symmetry; apply Z.leb_le; unfold prec, emax; lia).
    exists (2 ^ 52)%positive, (e + 1). split; [reflexivity |].
    split; [cbn; lia |]. right. split; [reflexivity | cbn; lia].
Qed.

(** Rounding a quotient of 54 bits drops its last bit and rounds on it. *)
Lemma binary_round_aux_54 (s : bool) (q : positive) (e : Z) (l : location) :
  2 ^ 53 <= Zpos q < 2 ^ 54 - 2 -> -1075 <= e <= 970 ->
  exists m',
    binary_round_aux prec emax s (Zpos q) e l = S754_finite s m' (e + 1)
    /\ 2 ^ 52 <= Zpos m' < 2 ^ 53
    /\ Zpos m'
       = round_nearest_even (Zpos q / 2)
           (loc_of_shr_record
              {| shr_m := Zpos q / 2; shr_r := Z.odd (Zpos q);
                 shr_s := match l with loc_Exact => false | _ => true end |}).
Proof.
  intros Hq He.
  assert (Hd : Zpos (digits2_pos q) = 54) by (apply digits_of_range; lia).
  unfold binary_round_aux. rewrite (shr_fexp_oneshift q e l Hd) by lia.
  assert (Hshr : shr_1 (shr_record_of_loc (Zpos q) l)
                 = {| shr_m := Zpos q / 2; shr_r := Z.odd (Zpos q);
                      shr_s := match l with loc_Exact => false | _ => true end |}).
  { destruct l as [| []]; cbn [shr_record_of_loc]; rewrite shr_1_spec by lia;
      reflexivity. }
  rewrite Hshr. cbn [shr_m].
  set (loc := loc_of_shr_record _).
  pose proof (round_nearest_even_range (Zpos q / 2) loc) as Hr.
  assert (Hhalf : 2 ^ 52 <= Zpos q / 2 < 2 ^ 53 - 1).
  { split.
    - apply Z.div_le_lower_bound; lia.
    - apply Z.div_lt_upper_bound; lia. }
  destruct (round_nearest_even (Zpos q / 2) loc) as [| m1 | m1] eqn:Hm1; try lia.
  assert (Hd1 : Zpos (digits2_pos m1) = 53) by (apply digits_of_range; lia).
  rewrite (shr_fexp_noshift m1 (e + 1) loc_Exact Hd1) by lia.
  cbn [shr_record_of_loc shr_m].
  replace (Z.leb (e + 1) (emax - prec)) with true
    by (symmetry; apply Z.leb_le; unfold prec, emax; lia).
  exists m1. split; [reflexivity |]. split; [lia | reflexivity].
Qed.

(** Dividing by 100 a number of hundredths below 2^60: the numerator is
    first scaled to 60 bits. *)
Lemma SFdiv_core_hundredths (p : positive) :
  Zpos p < 2 ^ 60 ->
  SFdiv_core_binary prec emax (Zpos p) 0 100 0
  = (Zpos p * 2 ^ (60 - Zpos (digits2_pos p)) / 100,
     Zpos (digits2_pos p) - 60,
     new_location 100 (Zpos p * 2 ^ (60 - Zpos (digits2_pos p)) mod 100)).
Proof.
  intros Hp. pose proof (digits2_pos_bounds p) as [Dlo Dhi].
  set (d := Zpos (digits2_pos p)) in *.
  assert (Hd : 0 < d <= 60).
  { split; [unfold d; lia |].
    destruct (Z_le_gt_dec d 60) as [H | H]; [exact H | exfalso].
    assert (2 ^ 60 <= 2 ^ (d - 1)) by (apply Z.pow_le_mono_r; lia). lia. }
  unfold SFdiv_core_binary.
  change (Zdigits2 100) with 7. change (Zdigits2 (Zpos p)) with d.
  assert (HE : Z.min (fexp prec emax (d + 0 - (7 + 0))) (0 - 0) = d - 60)
    by (unfold fexp, SpecFloat.emin, prec, emax; lia).
  rewrite HE.
  replace (0 - 0 - (d - 60)) with (60 - d) by lia.
  assert (Hshift : match 60 - d with
                   | Z0 => Zpos p
                   | Zpos _ => Z.shiftl (Zpos p) (60 - d)
                   | Zneg _ => 0
                   end = Zpos p * 2 ^ (60 - d)).
  { destruct (60 - d) as [| k | k] eqn:Hk; try lia.
    rewrite Z.shiftl_mul_pow2 by lia. reflexivity. }
  rewrite Hshift. unfold Z.div, Z.modulo.
  destruct (Z.div_eucl (Zpos p * 2 ^ (60 - d)) 100) as [q r]. reflexivity.
Qed.

Lemma new_location_100 (r : Z) :
  new_location 100 r
  = if Z.eqb r 0 then loc_Exact else loc_Inexact (Z.compare (2 * r) 100).
Proof. reflexivity. Qed.

(** The quotient by 100 of a number of hundredths below 2^60 is within half
    a unit in the last place of the exact quotient. *)
Lemma SFdiv_hundredths (s : bool) (p : positive) :
  Zpos p < 2 ^ 60 ->
  exists m' e',
    SFdiv prec emax (S754_finite s p 0) (S754_finite false 100 0)
    = S754_finite s m' e'
    /\ -60 <= e' <= 1
    /\ nearest_double_to_hundredths (Zpos p) m' e'.
Proof.
  intros Hp. pose proof (digits2_pos_bounds p) as [Dlo Dhi].
  cbn [SFdiv]. rewrite (SFdiv_core_hundredths p Hp). rewrite xorb_false_r.
  set (d := Zpos (digits2_pos p)) in *.
  assert (Hd : 0 < d <= 60).
  { split; [unfold d; lia |].
    destruct (Z_le_gt_dec d 60) as [H | H]; [exact H | exfalso].
    assert (2 ^ 60 <= 2 ^ (d - 1)) by (apply Z.pow_le_mono_r; lia). lia. }
  set (N := Zpos p * 2 ^ (60 - d)).
  assert (HN : 2 ^ 59 <= N < 2 ^ 60).
  { assert (H1 : 2 ^ 59 = 2 ^ (d - 1) * 2 ^ (60 - d))
      by (rewrite <- Z.pow_add_r by lia; f_equal; lia).
    assert (H2 : 2 ^ 60 = 2 ^ d * 2 ^ (60 - d))
      by (rewrite <- Z.pow_add_r by lia; f_equal; lia).
    assert (0 < 2 ^ (60 - d)) by (apply Z.pow_pos_nonneg; lia).
    rewrite H1, H2. unfold N. nia. }
  pose proof (Z.div_mod N 100 ltac:(lia)) as Hdiv.
  pose proof (Z.mod_pos_bound N 100 ltac:(lia)) as Hmod.
  set (q := N / 100) in *. set (r := N mod 100) in *.
  assert (Hq : 2 ^ 52 < q < 2 ^ 54 - 2).
  { change (2 ^ 59) with 576460752303423488 in HN.
    change (2 ^ 60) with 1152921504606846976 in HN.
    change (2 ^ 52) with 4503599627370496.
    change (2 ^ 54) with 18014398509481984. lia. }
  destruct q as [| qp | qp] eqn:Hqp; try lia.
  rewrite new_location_100.
  destruct (Z_lt_le_dec (Zpos qp) (2 ^ 53)) as [Hsmall | Hbig].
  - destruct (binary_round_aux_53 s qp (d - 60)
                (if Z.eqb r 0 then loc_Exact
                 else loc_Inexact (Z.compare (2 * r) 100)))
      as [m' [e' [-> [Hm' Hcase]]]]; [lia | lia |].
    exists m', e'.
    assert (Hround : 2 * Z.abs (100 * round_nearest_even (Zpos qp)
                                  (if Z.eqb r 0 then loc_Exact
                                   else loc_Inexact (Z.compare (2 * r) 100))
                                - N) <= 100).
    { destruct (Z.eqb_spec r 0) as [Hr0 | Hr0]; cbn [round_nearest_even];
        [lia |].
      destruct (Z.compare_spec (2 * r) 100); [| lia | lia].
      destruct (Z.even (Zpos qp)); lia. }
    split; [reflexivity |].
    destruct Hcase as [[-> Hm1] | [-> Hm1]].
    + split; [lia |]. split; [exact Hm' |].
      replace (Z.max (d - 60) 0) with 0 by lia.
      replace (Z.max (- (d - 60)) 0) with (60 - d) by lia.
      fold N. rewrite Z.pow_0_r, Hm1. lia.
    + split; [lia |]. split; [exact Hm' |].
      rewrite <- Hm1 in Hround.
      destruct (Z.eq_dec d 60) as [Hd60 | Hd60].
      * replace (Z.max (d - 60 + 1) 0) with 1 by lia.
        replace (Z.max (- (d - 60 + 1)) 0) with 0 by lia.
        unfold N in Hround. rewrite Hd60 in Hround.
        change (2 ^ (60 - 60)) with 1 in Hround.
        change (2 ^ 1) with 2. rewrite Z.pow_0_r. lia.
      * replace (Z.max (d - 60 + 1) 0) with 0 by lia.
        replace (Z.max (- (d - 60 + 1)) 0) with (59 - d) by lia.
        assert (HN2 : N = 2 * (Zpos p * 2 ^ (59 - d))).
        { unfold N. replace (60 - d) with (Z.succ (59 - d)) by lia.
          rewrite Z.pow_succ_r by lia. lia. }
        rewrite Z.pow_0_r. lia.
  - destruct (binary_round_aux_54 s qp (d - 60)
                (if Z.eqb r 0 then loc_Exact
                 else loc_Inexact (Z.compare (2 * r) 100)))
      as [m' [-> [Hm' Hm1]]]; [lia | lia |].
    exists m', (d - 60 + 1). split; [reflexivity |]. split; [lia |].
    split; [exact Hm' |].
    assert (Hround : 2 * Z.abs (200 * Zpos m' - N) <= 200).
    { rewrite Hm1.
      pose proof (Z.div_mod (Zpos qp) 2 ltac:(lia)) as Hq2.
      pose proof (Z.mod_pos_bound (Zpos qp) 2 ltac:(lia)) as Hq2b.
      rewrite Zmod_odd in Hq2, Hq2b.
      destruct (Z.odd (Zpos qp)); destruct (Z.eqb_spec r 0) as [Hr0 | Hr0];
        cbn [loc_of_shr_record round_nearest_even];
        try (destruct (Z.even (Zpos qp / 2))); lia. }
    destruct (Z.eq_dec d 60) as [Hd60 | Hd60].
    + replace (Z.max (d - 60 + 1) 0) with 1 by lia.
      replace (Z.max (- (d - 60 + 1)) 0) with 0 by lia.
      unfold N in Hround. rewrite Hd60 in Hround.
      change (2 ^ (60 - 60)) with 1 in Hround.
      change (2 ^ 1) with 2. rewrite Z.pow_0_r. lia.
    + replace (Z.max (d - 60 + 1) 0) with 0 by lia.
      replace (Z.max (- (d - 60 + 1)) 0) with (59 - d) by lia.
      assert (HN2 : N = 2 * (Zpos p * 2 ^ (59 - d))).
      { unfold N. replace (60 - d) with (Z.succ (59 - d)) by lia.
        rewrite Z.pow_succ_r by lia. lia. }
      rewrite Z.pow_0_r. lia.
Qed.

(** Shifting out zeros loses nothing. *)
Lemma iter_pos_shr_exact (k : positive) :
  forall m : Z,
    0 <= m ->
    iter_pos shr_1 k {| shr_m := m * 2 ^ Zpos k; shr_r := false; shr_s := false |}
    = {| shr_m := m; shr_r := false; shr_s := false |}.
Proof.
  assert (Hstep : forall m j, 0 <= m -> 0 <= j ->
            shr_1 {| shr_m := m * 2 ^ (j + 1); shr_r := false; shr_s := false |}
            = {| shr_m := m * 2 ^ j; shr_r := false; shr_s := false |}).
  { intros m j Hm Hj. rewrite shr_1_spec.
    - rewrite Z.pow_add_r, Z.pow_1_r by lia.
      rewrite Z.mul_assoc, Z.div_mul by lia.
      rewrite Z.odd_mul, Z.odd_mul. cbn [Z.odd]. rewrite !andb_false_r.
      reflexivity.
    - apply Z.mul_nonneg_nonneg; [exact Hm | apply Z.pow_nonneg; lia]. }
  induction k as [k IH | k IH |]; intros m Hm; cbn [iter_pos].
  - rewrite (Pos2Z.inj_xI k).
    replace (2 * Zpos k + 1) with (Zpos k + Zpos k + 1) by lia.
    rewrite Hstep by lia.
    rewrite Z.pow_add_r, Z.mul_assoc by lia.
    rewrite IH by (apply Z.mul_nonneg_nonneg; [exact Hm | apply Z.pow_nonneg; lia]).
    apply IH. exact Hm.
  - rewrite (Pos2Z.inj_xO k).
    replace (2 * Zpos k) with (Zpos k + Zpos k) by lia.
    rewrite Z.pow_add_r, Z.mul_assoc by lia.
    rewrite IH by (apply Z.mul_nonneg_nonneg; [exact Hm | apply Z.pow_nonneg; lia]).
    apply IH. exact Hm.
  - change (2 ^ 1) with (2 ^ (0 + 1)). rewrite Hstep by lia.
    rewrite Z.pow_0_r, Z.mul_1_r. reflexivity.
Qed.

(** A hundred times an integer double, divided by 100, is that double. *)
Lemma SFdiv_exact_hundredths (s : bool) (m p : positive) (e : Z) :
  Zpos (digits2_pos m) = 53 -> 0 <= e <= 971 ->
  Zpos p = Zpos m * 100 * 2 ^ e -> 2 ^ 60 <= Zpos p ->
  SFdiv prec emax (S754_finite s p 0) (S754_finite false 100 0)
  = S754_finite s m e.
Proof.
  intros Hdm He Hp Hbig.
  pose proof (digits2_pos_bounds m) as Hm. rewrite Hdm in Hm.
  change (2 ^ (53 - 1)) with (2 ^ 52) in Hm.
  pose proof (digits2_pos_bounds p) as [_ Dhi].
  set (d := Zpos (digits2_pos p)) in *.
  assert (Hd : 61 <= d).
  { destruct (Z_le_gt_dec 61 d) as [H | H]; [exact H | exfalso].
    assert (2 ^ d <= 2 ^ 60) by (apply Z.pow_le_mono_r; lia). lia. }
  assert (Hd' : d <= 1100).
  { destruct (Z_le_gt_dec d 1100) as [H | H]; [exact H | exfalso].
    pose proof (digits2_pos_bounds p) as [Dlo _]. fold d in Dlo.
    assert (2 ^ 1099 <= 2 ^ (d - 1)) by (apply Z.pow_le_mono_r; lia).
    assert (2 ^ e <= 2 ^ 971) by (apply Z.pow_le_mono_r; lia).
    assert (Zpos p < 2 ^ 53 * 100 * 2 ^ 971).
    { rewrite Hp. assert (0 < 2 ^ e) by (apply Z.pow_pos_nonneg; lia). nia. }
    assert (2 ^ 53 * 100 * 2 ^ 971 < 2 ^ 1099) by (vm_compute; reflexivity).
    lia. }
  assert (He1 : 1 <= e).
  { destruct (Z_le_gt_dec 1 e) as [H | H]; [exact H | exfalso].
    assert (e = 0) by lia. subst e. rewrite Z.pow_0_r in Hp.
    change (2 ^ 60) with 1152921504606846976 in Hbig.
    change (2 ^ 53) with 9007199254740992 in Hm. lia. }
  cbn [SFdiv]. unfold SFdiv_core_binary.
  change (Zdigits2 100) with 7. change (Zdigits2 (Zpos p)) with d.
  assert (HE : Z.min (fexp prec emax (d + 0 - (7 + 0))) (0 - 0) = 0)
    by (unfold fexp, SpecFloat.emin, prec, emax; lia).
  rewrite HE. cbn [Z.sub Z.opp Z.add].
  assert (Hq : Z.div_eucl (Zpos p) 100 = (Zpos m * 2 ^ e, 0)).
  { pose proof (Z.div_mod (Zpos p) 100 ltac:(lia)) as Hdiv.
    pose proof (Z.mod_pos_bound (Zpos p) 100 ltac:(lia)) as Hmod.
    unfold Z.div, Z.modulo in Hdiv, Hmod.
    destruct (Z.div_eucl (Zpos p) 100) as [q r]. cbn [fst snd] in *.
    rewrite Hp in Hdiv. f_equal; nia. }
  rewrite Hq. rewrite xorb_false_r.
  change (new_location 100 0) with loc_Exact.
  destruct e as [| k | k]; try lia.
  assert (Hpos : 0 < Zpos m * 2 ^ Zpos k)
    by (apply Z.mul_pos_pos; [lia | apply Z.pow_pos_nonneg; lia]).
  destruct (Zpos m * 2 ^ Zpos k) as [| qp | qp] eqn:Hqp; try lia.
  unfold binary_round_aux.
  assert (Hdq : Zpos (digits2_pos qp) = 53 + Zpos k).
  { apply digits_of_range. rewrite <- Hqp.
    replace (53 + Zpos k - 1) with (52 + Zpos k) by lia.
    rewrite !Z.pow_add_r by lia.
    assert (0 < 2 ^ Zpos k) by (apply Z.pow_pos_nonneg; lia). nia. }
  assert (Hshr : shr_fexp prec emax (Zpos qp) 0 loc_Exact
                 = ({| shr_m := Zpos m; shr_r := false; shr_s := false |},
                    Zpos k)).
  { unfold shr_fexp. cbn [Zdigits2 shr_record_of_loc]. rewrite Hdq.
    replace (fexp prec emax (53 + Zpos k + 0) - 0) with (Zpos k)
      by (unfold fexp, SpecFloat.emin, prec, emax; lia).
    cbn [shr]. rewrite <- Hqp, iter_pos_shr_exact by lia. reflexivity. }
  rewrite Hshr. cbn [shr_m loc_of_shr_record round_nearest_even].
  rewrite (shr_fexp_noshift m (Zpos k) loc_Exact Hdm) by lia.
  cbn [shr_record_of_loc shr_m].
  replace (Z.leb (Zpos k) (emax - prec)) with true
    by (symmetry; apply Z.leb_le; unfold prec, emax; lia).
  reflexivity.
Qed.

Lemma hundredths_nearest (m : positive) (e : Z) :
  rounded_to_2_places m e (hundredths m e).
Proof.
  unfold rounded_to_2_places, hundredths. destruct e as [| p | k].
  - replace (Z.max 0 0) with 0 by reflexivity.
    replace (Z.max (- 0) 0) with 0 by reflexivity.
    rewrite Z.pow_0_r. lia.
  - replace (Z.max (Z.pos p) 0) with (Z.pos p) by lia.
    replace (Z.max (- Z.pos p) 0) with 0 by lia.
    rewrite Z.pow_0_r. lia.
  - replace (Z.max (Z.neg k) 0) with 0 by lia.
    replace (Z.max (- Z.neg k) 0) with (Z.pos k) by lia.
    rewrite Z.pow_0_r, Z.mul_1_r, (Z.mul_comm 100).
    apply round_half_even_nearest. apply Z.pow_pos_nonneg; lia.
Qed.

(** The mantissa and exponent of a finite double. *)
Lemma valid_finite (x : float) (s : bool) (m : positive) (e : Z) :
  Prim2SF x = S754_finite s m e ->
  Zpos (digits2_pos m) <= 53
  /\ e <= 971
  /\ (0 <= e -> Zpos (digits2_pos m) = 53).
Proof.
  intros Hx. pose proof (Prim2SF_valid x) as Hv. rewrite Hx in Hv.
  cbn [valid_binary] in Hv. unfold bounded, canonical_mantissa in Hv.
  apply andb_prop in Hv as [Hc Hb].
  apply Z.eqb_eq in Hc. apply Z.leb_le in Hb.
  unfold fexp, SpecFloat.emin, prec, emax in *. lia.
Qed.

(** The value of [round(x, 2)] for a finite float, from the number of
    hundredths nearest to it. *)
Lemma float_round2_value (x : float) (s : bool) (m : positive) (e : Z) :
  Prim2SF x = S754_finite s m e ->
  match hundredths m e with
  | Zpos p =>
      exists m' e',
        Prim2SF (float_round2 x) = S754_finite s m' e'
        /\ nearest_double_to_hundredths (Zpos p) m' e'
  | _ => Prim2SF (float_round2 x) = S754_zero s
  end.
Proof.
  intros Hx. destruct (valid_finite x s m e Hx) as [Hd53 [He Hcanon]].
  pose proof (digits2_pos_bounds m) as [_ Hm].
  assert (Hm53 : Zpos m < 2 ^ 53).
  { assert (2 ^ Zpos (digits2_pos m) <= 2 ^ 53)
      by (apply Z.pow_le_mono_r; lia).
    lia. }
  unfold float_round2. rewrite Hx.
  destruct (hundredths m e) as [| p | p] eqn:Hn; cbn [float_of_hundredths].
  - destruct s; reflexivity.
  - destruct (Z_lt_le_dec (Zpos p) (2 ^ 60)) as [Hsmall | Hbig].
    + destruct (SFdiv_hundredths s p Hsmall) as [m' [e' [-> [He' Hnear]]]].
      exists m', e'. split; [| exact Hnear].
      apply Prim2SF_SF2Prim. cbn [valid_binary].
      unfold bounded, canonical_mantissa.
      destruct Hnear as [Hm' _].
      rewrite (digits_of_range m' 53) by (change (2 ^ (53 - 1)) with (2 ^ 52); lia).
      apply andb_true_intro. split.
      * apply Z.eqb_eq. unfold fexp, SpecFloat.emin, prec, emax. lia.
      * apply Z.leb_le. unfold prec, emax. lia.
    + assert (He0 : 0 <= e).
      { destruct (Z_le_gt_dec 0 e) as [H | H]; [exact H | exfalso].
        unfold hundredths in Hn. destruct e as [| k | k]; try lia.
        pose proof (round_half_even_nearest (Zpos m * 100) (2 ^ Zpos k)
                      ltac:(apply Z.pow_pos_nonneg; lia)) as Hr.
        rewrite Hn in Hr.
        assert (2 <= 2 ^ Zpos k).
        { change 2 with (2 ^ 1) at 1. apply Z.pow_le_mono_r; lia. }
        change (2 ^ 60) with 1152921504606846976 in Hbig.
        change (2 ^ 53) with 9007199254740992 in Hm53. nia. }
      assert (Hp : Zpos p = Zpos m * 100 * 2 ^ e).
      { unfold hundredths in Hn. destruct e as [| k | k]; try lia;
          symmetry; exact Hn. }
      rewrite (SFdiv_exact_hundredths s m p e (Hcanon He0) ltac:(lia) Hp Hbig).
      rewrite <- Hx, SF2Prim_Prim2SF.
      exists m, e. split; [exact Hx |]. split.
      * pose proof (digits2_pos_bounds m) as Hb. rewrite (Hcanon He0) in Hb.
        change (2 ^ (53 - 1)) with (2 ^ 52) in Hb. exact Hb.
      * replace (Z.max e 0) with e by lia.
        replace (Z.max (- e) 0) with 0 by lia.
        rewrite Hp, Z.pow_0_r.
        replace (100 * Z.pos m * 2 ^ e - Z.pos m * 100 * 2 ^ e * 1) with 0
          by lia.
        cbn [Z.abs]. assert (0 < 2 ^ e) by (apply Z.pow_pos_nonneg; lia). lia.
  - exfalso. pose proof (hundredths_nearest m e) as Hr.
    assert (0 <= hundredths m e).
    { unfold hundredths. destruct e as [| k | k].
      - lia.
      - assert (0 < 2 ^ Zpos k) by (apply Z.pow_pos_nonneg; lia). nia.
      - unfold round_half_even.
        pose proof (Z.div_mod (Zpos m * 100) (2 ^ Zpos k)) as Hdiv.
        assert (Hpos : 0 < 2 ^ Zpos k) by (apply Z.pow_pos_nonneg; lia).
        pose proof (Z.div_pos (Zpos m * 100) (2 ^ Zpos k) ltac:(lia) Hpos).
        unfold Z.div in *.
        destruct (Z.div_eucl (Zpos m * 100) (2 ^ Zpos k)) as [q r].
        cbn [fst] in *.
        destruct (Z.compare (2 * r) (2 ^ Zpos k)); [destruct (Z.even q) | |]; lia. }
    lia.
Qed.

(** [round(v, 2)] rounds to two decimal places. *)
Lemma round2_rounded_2dp (v : number) : rounded_2dp v (round2 v).
Proof.
  destruct v as [z | x]; cbn [rounded_2dp round2]; [reflexivity |].
  exists (float_round2 x). split; [reflexivity |].
  destruct (Prim2SF x) as [s | s | | s m e] eqn:Hx;
    try (unfold float_round2; rewrite Hx; exact Hx).
  exists (hundredths m e). split; [apply hundredths_nearest |].
  pose proof (float_round2_value x s m e Hx) as H.
  destruct (hundredths m e); exact H.
Qed.

Lemma mul_by_float (v : number) (x c : float) :
  as_float v = Ok x -> mul v (PyFloat c) = Ok (PyFloat (x * c)).
Proof.
  intros Hv. destruct v as [z | f]; unfold mul; rewrite Hv; reflexivity.
Qed.

Lemma mul_by_100 (v : number) :
  mul v (PyInt 100)
  = Ok match v with
       | PyInt z => PyInt (z * 100)
       | PyFloat f => PyFloat (f * 100)
       end.
Proof. destruct v; reflexivity. Qed.

(** The glyph is always chosen when the high and the low convert to
    floats. *)
Lemma trend_of_returns (current high low : number) (h l : float) :
  as_float high = Ok h ->
  as_float low = Ok l ->
  exists t, trend_of current high low = Ok t.
Proof.
  intros Hh Hl. unfold trend_of.
  rewrite (mul_by_float _ _ _ Hh). cbn [rbind].
  destruct (gt current _); [exists Up; reflexivity |].
  rewrite (mul_by_float _ _ _ Hl). cbn [rbind].
  destruct (lt current _); [exists Down | exists Flat]; reflexivity.
Qed.



(** ** Quotes without data and failing requests *)

(** C8, as stated, fails: when the request for one symbol raises, the fetch
    returns no table at all, and the symbols after it are never asked for. *)
Lemma provider_failure_aborts_fetch :
  fetch_data axis_unreachable
    [("HDFC Bank", "HDFCBANK.NS"); ("Axis Bank", "AXISBANK.NS");
     ("Canara Bank", "CANBK.NS")] []
  = (Raise (ProviderError "AXISBANK.NS"), ["HDFCBANK.NS"; "AXISBANK.NS"]).
Proof. vm_compute. reflexivity. Qed.

Lemma row_for_no_data (provider : Provider) (name symbol : string) :
  provider symbol = Ok no_data ->
  row_for provider (name, symbol) = Ok (zero_row name).
Proof.
  intros H. unfold row_for. cbn [fst snd]. rewrite H. reflexivity.
Qed.

(** C8, amended: for every symbol for which the provider returns no data,
    the fetch substitutes a quote with all numeric fields at zero and the P/E
    absent, asks for every symbol once (no retry), and still produces the
    rows of the other symbols; a request that raises is not caught: the
    exception ends the fetch, no table is produced and the symbols after it
    are not requested. *)
Theorem fetch_data_missing_quote (provider : Provider)
  (before after : dict string) (name symbol : string) (done : list Row)
  (log : list string) :
  Forall2 (fun item row => row_for provider item = Ok row) before done ->
  (provider symbol = Ok no_data ->
   forall rest,
     Forall2 (fun item row => row_for provider item = Ok row) after rest ->
     fetch_data provider (before ++ (name, symbol) :: after) log
     = (Ok (DataFrame_new (done ++ zero_row name :: rest)),
        log ++ map snd (before ++ (name, symbol) :: after)))
  /\ (forall e,
        provider symbol = Raise e ->
        fetch_data provider (before ++ (name, symbol) :: after) log
        = (Raise e, log ++ map snd before ++ [symbol])).
Proof.
  intros Hbefore. split.
  - intros Hnone rest Hafter. unfold fetch_data, bind, ret.
    rewrite (fetch_rows_all provider _ (done ++ zero_row name :: rest)).
    + reflexivity.
    + apply Forall2_app; [exact Hbefore |].
      constructor; [apply row_for_no_data; exact Hnone | exact Hafter].
  - intros e Hraise. unfold fetch_data, bind.
    rewrite (fetch_rows_raise provider before done (name, symbol) after e).
    + reflexivity.
    + exact Hbefore.
    + unfold row_for. cbn [fst snd]. rewrite Hraise. reflexivity.
Qed.

Lemma fetch_data_missing_quote_witness :
  fetch_data hdfc_only
    [("HDFC Bank", "HDFCBANK.NS"); ("Axis Bank", "AXISBANK.NS");
     ("Canara Bank", "CANBK.NS")] []
  = (Ok (DataFrame_new [sample_row "HDFC Bank"; zero_row "Axis Bank";
                        zero_row "Canara Bank"]),
     ["HDFCBANK.NS"; "AXISBANK.NS"; "CANBK.NS"]).
Proof.
  apply (proj1 (fetch_data_missing_quote hdfc_only
                  [("HDFC Bank", "HDFCBANK.NS")] [("Canara Bank", "CANBK.NS")]
                  "Axis Bank" "AXISBANK.NS" [sample_row "HDFC Bank"] []
                  ltac:(repeat constructor))
               eq_refl [zero_row "Canara Bank"]).
  repeat constructor.
Defined.

(** * Further properties of the script *)

(** ** The dictionary comprehension *)

Lemma in_directory_get (name : string) :
  in_directory name = true ->
  exists symbol, dict_get bank_nifty_tickers name = Ok symbol.
Proof.
  unfold in_directory. generalize bank_nifty_tickers as d.
  induction d as [| [k v] d IH]; cbn [map fst existsb dict_get];
    [discriminate |].
  rewrite String.eqb_sym.
  destruct (String.eqb k name); [exists v; reflexivity | exact IH].
Qed.

Lemma not_in_directory_get (name : string) :
  in_directory name = false ->
  dict_get bank_nifty_tickers name = Raise (KeyError name).
Proof.
  unfold in_directory. generalize bank_nifty_tickers as d.
  induction d as [| [k v] d IH]; cbn [map fst existsb dict_get];
    [reflexivity |].
  rewrite String.eqb_sym.
  destruct (String.eqb k name); [discriminate | exact IH].
Qed.

Lemma dict_set_fresh {V : Type} (d : dict V) (k : string) (v : V) :
  ~ In k (map fst d) -> dict_set d k v = d ++ [(k, v)].
Proof.
  induction d as [| [k' v'] d IH]; cbn [dict_set map fst app];
    intros Hfresh; [reflexivity |].
  destruct (String.eqb_spec k' k) as [-> | _].
  - exfalso. apply Hfresh. left. reflexivity.
  - rewrite IH; [reflexivity |]. intros Hin. apply Hfresh. right. exact Hin.
Qed.

Lemma dict_set_keys_In {V : Type} (d : dict V) (k : string) (v : V)
  (x : string) :
  In x (map fst (dict_set d k v)) -> In x (map fst d) \/ x = k.
Proof.
  intros Hin. apply in_map_iff in Hin as [[k0 v0] [<- Hin]].
  destruct (dict_set_In _ _ _ _ _ Hin) as [Hold | Hnew].
  - left. apply in_map_iff. exists (k0, v0). auto.
  - injection Hnew as -> _. right. reflexivity.
Qed.

Lemma dict_set_keys_NoDup {V : Type} (d : dict V) (k : string) (v : V) :
  NoDup (map fst d) -> NoDup (map fst (dict_set d k v)).
Proof.
  induction d as [| [k' v'] d IH]; cbn [dict_set map fst]; intros Hnd.
  - constructor; [intros [] | constructor].
  - inversion Hnd as [| x l Hnotin Hrest]; subst.
    destruct (String.eqb_spec k' k) as [-> | Hne]; cbn [map fst].
    + constructor; assumption.
    + constructor; [| exact (IH Hrest)].
      intros Hin. destruct (dict_set_keys_In _ _ _ _ Hin) as [Hold | ->].
      * exact (Hnotin Hold).
      * exact (Hne eq_refl).
Qed.

(** The keys of the restricted directory are distinct, whatever the
    selection. *)
Lemma select_tickers_NoDup (selected : list string) :
  forall acc out,
    NoDup (map fst acc) ->
    select_tickers selected acc = Ok out ->
    NoDup (map fst out).
Proof.
  induction selected as [| k rest IH]; intros acc out Hnd H.
  - cbn in H. injection H as <-. exact Hnd.
  - cbn [select_tickers] in H. step_ok H.
    apply (IH _ _ (dict_set_keys_NoDup _ _ _ Hnd) H).
Qed.

Lemma select_tickers_distinct (selected : list string) :
  forall acc,
    NoDup (map fst acc ++ selected) ->
    forallb in_directory selected = true ->
    exists new,
      select_tickers selected acc = Ok (acc ++ new)
      /\ map fst new = selected
      /\ forall name symbol,
           In (name, symbol) new -> In (name, symbol) bank_nifty_tickers.
Proof.
  induction selected as [| k rest IH]; intros acc Hnd Hvalid.
  - exists []. cbn. rewrite app_nil_r. repeat split. intros ? ? [].
  - cbn [forallb] in Hvalid. apply andb_prop in Hvalid as [Hk Hrest].
    destruct (in_directory_get _ Hk) as [symbol Hget].
    cbn [select_tickers]. rewrite Hget. cbn [rbind].
    assert (Hfresh : ~ In k (map fst acc)).
    { apply NoDup_remove_2 in Hnd. intros Hin. apply Hnd.
      apply in_or_app. left. exact Hin. }
    rewrite (dict_set_fresh _ _ _ Hfresh).
    destruct (IH (acc ++ [(k, symbol)])) as [new [Hsel [Hkeys Hdir]]].
    + rewrite map_app. cbn [map fst]. rewrite <- app_assoc. exact Hnd.
    + exact Hrest.
    + exists ((k, symbol) :: new). rewrite Hsel, <- app_assoc.
      split; [reflexivity |]. split; [cbn [map fst]; rewrite Hkeys; reflexivity |].
      intros name s [Heq | Hin].
      * injection Heq as <- <-. apply dict_get_In. exact Hget.
      * exact (Hdir _ _ Hin).
Qed.

(** X1: for a value of the multiselect, the comprehension returns a
    directory that lists exactly the selected companies, in the order they
    were selected, each with the symbol the full directory gives it. *)
Theorem select_tickers_of_multiselect (selected_companies : list string) :
  multiselect_value selected_companies ->
  exists tickers,
    select_tickers selected_companies [] = Ok tickers
    /\ map fst tickers = selected_companies
    /\ forall name symbol,
         In (name, symbol) tickers ->
         dict_get bank_nifty_tickers name = Ok symbol.
Proof.
  intros [Hnd Hvalid].
  destruct (select_tickers_distinct selected_companies [] Hnd Hvalid)
    as [new [Hsel [Hkeys Hdir]]].
  exists new. split; [exact Hsel |]. split; [exact Hkeys |].
  intros name symbol Hin. specialize (Hdir _ _ Hin).
  revert Hdir. clear. cbn.
  intros H.
  repeat (destruct H as [H | H]; [injection H as <- <-; reflexivity |]).
  destruct H.
Qed.

Lemma select_tickers_of_multiselect_witness :
  exists tickers,
    select_tickers ["Canara Bank"; "HDFC Bank"] [] = Ok tickers
    /\ map fst tickers = ["Canara Bank"; "HDFC Bank"]
    /\ forall name symbol,
         In (name, symbol) tickers ->
         dict_get bank_nifty_tickers name = Ok symbol.
Proof.
  apply select_tickers_of_multiselect. split.
  - repeat (constructor; [cbn; intuition discriminate |]). constructor.
  - vm_compute. reflexivity.
Defined.

(** X2: a selected name that is not a key of the directory makes the
    comprehension raise [KeyError] with that name, at the first such name;
    nothing is fetched for the names before it. *)
Theorem select_tickers_unknown_name (provider : Provider)
  (before after : list string) (name : string) (min_roe max_pe : Z)
  (log : list string) :
  forallb in_directory before = true ->
  in_directory name = false ->
  select_tickers (before ++ name :: after) [] = Raise (KeyError name)
  /\ main_data provider (before ++ name :: after) min_roe max_pe log
     = (Raise (KeyError name), log).
Proof.
  intros Hbefore Hname.
  assert (H : forall acc,
             select_tickers (before ++ name :: after) acc
             = Raise (KeyError name)).
  { induction before as [| k rest IH]; intros acc.
    - cbn [app select_tickers]. rewrite (not_in_directory_get _ Hname).
      reflexivity.
    - cbn [forallb] in Hbefore. apply andb_prop in Hbefore as [Hk Hrest].
      destruct (in_directory_get _ Hk) as [symbol Hget].
      cbn [app select_tickers]. rewrite Hget. cbn [rbind].
      apply (IH Hrest). }
  split; [apply H |].
  unfold main_data, bind, lift. rewrite H. reflexivity.
Qed.

Lemma select_tickers_unknown_name_witness :
  select_tickers (["HDFC Bank"] ++ "Yes Bank" :: ["Axis Bank"]) []
  = Raise (KeyError "Yes Bank")
  /\ main_data hdfc_only (["HDFC Bank"] ++ "Yes Bank" :: ["Axis Bank"])
       10 25 []
     = (Raise (KeyError "Yes Bank"), []).
Proof.
  apply select_tickers_unknown_name; vm_compute; reflexivity.
Defined.

(** ** The directory *)

Lemma directory_keys_NoDup : NoDup (map fst bank_nifty_tickers).
Proof.
  cbn. repeat (constructor; [cbn; intuition discriminate |]). constructor.
Qed.

Lemma directory_symbols_NoDup : NoDup (map snd bank_nifty_tickers).
Proof.
  cbn. repeat (constructor; [cbn; intuition discriminate |]). constructor.
Qed.

Lemma NoDup_map_fst_functional {A B : Type} (l : list (A * B)) (a : A)
  (b1 b2 : B) :
  NoDup (map fst l) -> In (a, b1) l -> In (a, b2) l -> b1 = b2.
Proof.
  induction l as [| [a0 b0] l IH]; cbn [map fst]; intros Hnd H1 H2.
  - destruct H1.
  - inversion Hnd as [| x l' Hnotin Hrest]; subst.
    destruct H1 as [H1 | H1], H2 as [H2 | H2].
    + congruence.
    + injection H1 as -> _. exfalso. apply Hnotin.
      apply in_map_iff. exists (a, b2). auto.
    + injection H2 as -> _. exfalso. apply Hnotin.
      apply in_map_iff. exists (a, b1). auto.
    + exact (IH Hrest H1 H2).
Qed.

Lemma NoDup_map_snd_functional {A B : Type} (l : list (A * B)) (a1 a2 : A)
  (b : B) :
  NoDup (map snd l) -> In (a1, b) l -> In (a2, b) l -> a1 = a2.
Proof.
  induction l as [| [a0 b0] l IH]; cbn [map snd]; intros Hnd H1 H2.
  - destruct H1.
  - inversion Hnd as [| x l' Hnotin Hrest]; subst.
    destruct H1 as [H1 | H1], H2 as [H2 | H2].
    + congruence.
    + injection H1 as _ ->. exfalso. apply Hnotin.
      apply in_map_iff. exists (a2, b). auto.
    + injection H2 as _ ->. exfalso. apply Hnotin.
      apply in_map_iff. exists (a1, b). auto.
    + exact (IH Hrest H1 H2).
Qed.

(** Distinct keys with distinct symbols in the directory: the symbols of a
    restricted directory are distinct too. *)
Lemma restricted_symbols_NoDup (d : dict string) :
  NoDup (map fst d) ->
  (forall name symbol, In (name, symbol) d ->
                       In (name, symbol) bank_nifty_tickers) ->
  NoDup (map snd d).
Proof.
  induction d as [| [k v] d IH]; cbn [map fst snd]; intros Hnd Hdir.
  - constructor.
  - inversion Hnd as [| x l Hnotin Hrest]; subst. constructor.
    + intros Hin. apply in_map_iff in Hin as [[k' v'] [Hv Hin]].
      cbn [snd] in Hv. subst v'.
      assert (k' = k).
      { apply (NoDup_map_snd_functional bank_nifty_tickers k' k v
                 directory_symbols_NoDup).
        - apply Hdir. right. exact Hin.
        - apply Hdir. left. reflexivity. }
      subst k'. apply Hnotin. apply in_map_iff. exists (k, v). auto.
    + apply IH; [exact Hrest |]. intros n s Hin. apply Hdir. right. exact Hin.
Qed.

(** ** The assembled table *)

Lemma row_for_Company (provider : Provider) (item : string * string)
  (row : Row) :
  row_for provider item = Ok row -> Company row = fst item.
Proof.
  unfold row_for. intros H. step_ok H. exact (make_row_Company _ _ _ H).
Qed.

Lemma rows_companies (provider : Provider) (items : dict string)
  (new : list Row) :
  Forall2 (fun item row => row_for provider item = Ok row) items new ->
  map Company new = map fst items.
Proof.
  induction 1 as [| item row items new Hrow _ IH]; [reflexivity |].
  cbn [map]. rewrite IH, (row_for_Company _ _ _ Hrow). reflexivity.
Qed.

(** X3: when [fetch_data] returns, the frame has one row per entry of the
    directory it was given, in the directory's order and under the entry's
    company name; each symbol was requested once, in that order; and the
    frame has the eight columns unless the directory was empty, in which case
    it has none. *)
Theorem fetch_data_shape (provider : Provider) (tickers : dict string)
  (log log' : list string) (df : DataFrame) :
  fetch_data provider tickers log = (Ok df, log') ->
  map Company (rows df) = map fst tickers
  /\ log' = log ++ map snd tickers
  /\ columns df = match tickers with [] => [] | _ :: _ => column_names end.
Proof.
  unfold fetch_data, bind, ret. intros H.
  destruct (fetch_rows provider tickers [] log) as [[data | e] log1] eqn:Hf;
    [| discriminate H].
  injection H as <- <-.
  destruct (fetch_rows_ok _ _ _ _ _ _ Hf) as [Hlog [new [-> Hall]]].
  cbn [app DataFrame_new rows columns].
  split; [exact (rows_companies _ _ _ Hall) |]. split; [exact Hlog |].
  destruct Hall; reflexivity.
Qed.

Lemma fetch_data_shape_witness :
  map Company [sample_row "HDFC Bank"; zero_row "Axis Bank"]
  = map fst [("HDFC Bank", "HDFCBANK.NS"); ("Axis Bank", "AXISBANK.NS")]
  /\ ["HDFCBANK.NS"; "AXISBANK.NS"]
     = [] ++ map snd [("HDFC Bank", "HDFCBANK.NS");
                      ("Axis Bank", "AXISBANK.NS")]
  /\ columns (DataFrame_new [sample_row "HDFC Bank"; zero_row "Axis Bank"])
     = column_names.
Proof.
  apply (fetch_data_shape hdfc_only
           [("HDFC Bank", "HDFCBANK.NS"); ("Axis Bank", "AXISBANK.NS")]
           [] ["HDFCBANK.NS"; "AXISBANK.NS"]
           (DataFrame_new [sample_row "HDFC Bank"; zero_row "Axis Bank"])).
  vm_compute. reflexivity.
Defined.

(** ** The filter: thresholds, composition, failures *)

Lemma ge_int_mono (v : number) (a a' : Z) :
  a <= a' -> ge v (PyInt a') = true -> ge v (PyInt a) = true.
Proof.
  intros Hle. unfold ge, compare.
  change (exact (PyInt a')) with (XFin a' 0).
  change (exact (PyInt a)) with (XFin a 0).
  destruct (exact v) as [| s | m e]; try (intros H; exact H).
  cbv zeta.
  assert (Hpow : 0 < 2 ^ (0 - Z.min e 0)) by (apply Z.pow_pos_nonneg; lia).
  destruct (Z.compare_spec (m * 2 ^ (e - Z.min e 0))
                           (a' * 2 ^ (0 - Z.min e 0))) as [H1 | H1 | H1];
    intros H; try discriminate H;
    destruct (Z.compare_spec (m * 2 ^ (e - Z.min e 0))
                             (a * 2 ^ (0 - Z.min e 0))) as [H2 | H2 | H2];
    try reflexivity; exfalso; nia.
Qed.

Lemma le_int_mono (v : number) (b b' : Z) :
  b' <= b -> le v (PyInt b') = true -> le v (PyInt b) = true.
Proof.
  intros Hle. unfold le, compare.
  change (exact (PyInt b')) with (XFin b' 0).
  change (exact (PyInt b)) with (XFin b 0).
  destruct (exact v) as [| s | m e]; try (intros H; exact H).
  cbv zeta.
  assert (Hpow : 0 < 2 ^ (0 - Z.min e 0)) by (apply Z.pow_pos_nonneg; lia).
  destruct (Z.compare_spec (m * 2 ^ (e - Z.min e 0))
                           (b' * 2 ^ (0 - Z.min e 0))) as [H1 | H1 | H1];
    intros H; try discriminate H;
    destruct (Z.compare_spec (m * 2 ^ (e - Z.min e 0))
                             (b * 2 ^ (0 - Z.min e 0))) as [H2 | H2 | H2];
    try reflexivity; exfalso; nia.
Qed.

Lemma ge_int_max (v : number) (a1 a2 : Z) :
  ge v (PyInt (Z.max a1 a2)) = ge v (PyInt a1) && ge v (PyInt a2).
Proof.
  destruct (Z.max_spec a1 a2) as [[Hlt ->] | [Hle ->]].
  - destruct (ge v (PyInt a2)) eqn:H2; [| rewrite andb_false_r; reflexivity].
    rewrite (ge_int_mono v a1 a2) by (lia || assumption). reflexivity.
  - destruct (ge v (PyInt a1)) eqn:H1; [| reflexivity].
    rewrite (ge_int_mono v a2 a1) by (lia || assumption). reflexivity.
Qed.

Lemma le_int_min (v : number) (b1 b2 : Z) :
  le v (PyInt (Z.min b1 b2)) = le v (PyInt b1) && le v (PyInt b2).
Proof.
  destruct (Z.min_spec b1 b2) as [[Hlt ->] | [Hle ->]].
  - destruct (le v (PyInt b1)) eqn:H1; [| reflexivity].
    rewrite (le_int_mono v b2 b1) by (lia || assumption). reflexivity.
  - destruct (le v (PyInt b2)) eqn:H2; [| rewrite andb_false_r; reflexivity].
    rewrite (le_int_mono v b1 b2) by (lia || assumption). reflexivity.
Qed.

Lemma keeps_both (a1 b1 a2 b2 : Z) (r : Row) :
  keeps (Z.max a1 a2) (Z.min b1 b2) r = keeps a1 b1 r && keeps a2 b2 r.
Proof.
  unfold keeps. rewrite ge_int_max.
  destruct (PE_Ratio r) as [pe |].
  - rewrite le_int_min.
    destruct (ge (ROE_pct r) (PyInt a1)), (ge (ROE_pct r) (PyInt a2)),
      (le pe (PyInt b1)), (le pe (PyInt b2)); reflexivity.
  - rewrite !andb_false_r. reflexivity.
Qed.

Lemma keeps_iff (min_roe max_pe : Z) (r : Row) :
  keeps min_roe max_pe r = true
  <-> ge (ROE_pct r) (PyInt min_roe) = true
      /\ exists pe, PE_Ratio r = Some pe /\ le pe (PyInt max_pe) = true.
Proof.
  split; [apply keeps_pe_present |].
  intros [Hroe [pe [Hpe Hle]]]. unfold keeps. rewrite Hroe, Hpe, Hle.
  reflexivity.
Qed.

Lemma filter_filter {A : Type} (f g : A -> bool) (l : list A) :
  filter g (filter f l) = filter (fun a => f a && g a) l.
Proof.
  induction l as [| a l IH]; [reflexivity |].
  cbn [filter]. destruct (f a); cbn [filter andb]; [| exact IH].
  destruct (g a); rewrite IH; reflexivity.
Qed.

(** X4: the filter keeps the columns, and keeps exactly the rows whose
    ROE (%) is at least the minimum and whose P/E is present and at most the
    maximum, unchanged, in their original order and as often as they
    occur. *)
Theorem filter_df_membership (df out : DataFrame) (min_roe max_pe : Z) :
  filter_df df min_roe max_pe = Ok out ->
  columns out = columns df
  /\ rows out = filter (keeps min_roe max_pe) (rows df)
  /\ forall r,
       In r (rows out)
       <-> In r (rows df)
           /\ ge (ROE_pct r) (PyInt min_roe) = true
           /\ exists pe, PE_Ratio r = Some pe /\ le pe (PyInt max_pe) = true.
Proof.
  intros H. destruct (filter_df_inv _ _ _ _ H) as [_ [_ ->]].
  cbn [columns rows]. split; [reflexivity |]. split; [reflexivity |].
  intros r. rewrite filter_In, keeps_iff. reflexivity.
Qed.

Lemma filter_df_membership_witness :
  columns {| columns := column_names; rows := [sample_row "HDFC Bank"] |}
  = columns (DataFrame_new [zero_row "Axis Bank"; sample_row "HDFC Bank"])
  /\ rows {| columns := column_names; rows := [sample_row "HDFC Bank"] |}
     = filter (keeps 10 25)
         (rows (DataFrame_new [zero_row "Axis Bank"; sample_row "HDFC Bank"])).
Proof.
  destruct (filter_df_membership
              (DataFrame_new [zero_row "Axis Bank"; sample_row "HDFC Bank"])
              {| columns := column_names; rows := [sample_row "HDFC Bank"] |}
              10 25 ltac:(vm_compute; reflexivity)) as [Hc [Hr _]].
  split; [exact Hc | exact Hr].
Defined.

(** X5: filtering a filtered table again, with any second pair of
    thresholds, gives what one filter with the larger minimum ROE and the
    smaller maximum P/E gives on the original table; so the order of two
    filters does not matter. *)
Theorem filter_df_compose (df mid : DataFrame) (a1 b1 a2 b2 : Z) :
  filter_df df a1 b1 = Ok mid ->
  filter_df mid a2 b2 = filter_df df (Z.max a1 a2) (Z.min b1 b2).
Proof.
  intros H. destruct (filter_df_inv _ _ _ _ H) as [Hroe [Hpe ->]].
  rewrite (filter_df_rows df _ _ Hroe Hpe).
  rewrite filter_df_rows by assumption. cbn [columns rows].
  rewrite filter_filter. do 2 f_equal.
  apply filter_ext. intros r. symmetry. apply keeps_both.
Qed.

Lemma filter_df_compose_witness :
  filter_df {| columns := column_names; rows := [sample_row "HDFC Bank"] |}
            15 20
  = filter_df (DataFrame_new [zero_row "Axis Bank"; sample_row "HDFC Bank"])
              (Z.max 10 15) (Z.min 25 20).
Proof.
  apply filter_df_compose. vm_compute. reflexivity.
Defined.

(** X6: tightening the sliders never adds a row: with a minimum ROE at
    least as large and a maximum P/E at most as large, the filter returns a
    table whose rows all were in the table of the looser thresholds, and it
    is the table obtained by filtering that looser table. *)
Theorem filter_df_tighten (df loose : DataFrame) (a b a' b' : Z) :
  a <= a' -> b' <= b ->
  filter_df df a b = Ok loose ->
  exists tight,
    filter_df df a' b' = Ok tight
    /\ filter_df loose a' b' = Ok tight
    /\ incl (rows tight) (rows loose).
Proof.
  intros Ha Hb H. destruct (filter_df_inv _ _ _ _ H) as [Hroe [Hpe ->]].
  exists {| columns := columns df; rows := filter (keeps a' b') (rows df) |}.
  split; [apply filter_df_rows; assumption |]. split.
  - rewrite filter_df_rows by assumption. cbn [columns rows].
    rewrite filter_filter. do 2 f_equal. apply filter_ext. intros r.
    rewrite <- keeps_both.
    rewrite Z.max_r, Z.min_r by assumption. reflexivity.
  - cbn [rows]. intros r Hin. apply filter_In in Hin as [Hin Hk].
    apply filter_In. split; [exact Hin |].
    apply keeps_iff in Hk as [Hr [pe [Hpe' Hl]]]. apply keeps_iff. split.
    + exact (ge_int_mono _ _ _ Ha Hr).
    + exists pe. split; [exact Hpe' | exact (le_int_mono _ _ _ Hb Hl)].
Qed.

Lemma filter_df_tighten_witness :
  exists tight,
    filter_df (DataFrame_new [zero_row "Axis Bank"; sample_row "HDFC Bank"])
              18 25 = Ok tight
    /\ filter_df {| columns := column_names;
                    rows := [sample_row "HDFC Bank"] |} 18 25 = Ok tight
    /\ incl (rows tight) [sample_row "HDFC Bank"].
Proof.
  apply (filter_df_tighten
           (DataFrame_new [zero_row "Axis Bank"; sample_row "HDFC Bank"])
           {| columns := column_names; rows := [sample_row "HDFC Bank"] |}
           10 25 18 25); [lia | lia | vm_compute; reflexivity].
Defined.

(** X7: on a frame without the column "ROE (%)" (such as the frame of an
    empty list of rows) the filter raises [KeyError] for it; on a frame of
    fetched rows that has "ROE (%)" but not "P/E Ratio" it raises [KeyError]
    for "P/E Ratio"; and it returns a table only for a frame that has both
    columns. *)
Theorem filter_df_missing_column (df : DataFrame) (min_roe max_pe : Z) :
  (~ In "ROE (%)" (columns df) ->
   filter_df df min_roe max_pe = Raise (KeyError "ROE (%)"))
  /\ (In "ROE (%)" (columns df) -> ~ In "P/E Ratio" (columns df) ->
      filter_df df min_roe max_pe = Raise (KeyError "P/E Ratio"))
  /\ (forall out,
        filter_df df min_roe max_pe = Ok out ->
        In "ROE (%)" (columns df) /\ In "P/E Ratio" (columns df)).
Proof.
  assert (Hex : forall col,
             existsb (String.eqb col) (columns df) = true
             <-> In col (columns df)).
  { intros col. rewrite existsb_exists. split.
    - intros [x [Hin Heq]]. apply String.eqb_eq in Heq. subst x. exact Hin.
    - intros Hin. exists col. split; [exact Hin | apply String.eqb_refl]. }
  split; [| split].
  - intros Hroe. unfold filter_df, getitem.
    destruct (existsb (String.eqb "ROE (%)") (columns df)) eqn:H;
      [| reflexivity].
    exfalso. apply Hroe. apply Hex. exact H.
  - intros Hroe Hpe. apply Hex in Hroe. unfold filter_df, getitem.
    rewrite Hroe. cbn [rbind]. rewrite compare_scalar_roe. cbn [rbind].
    destruct (existsb (String.eqb "P/E Ratio") (columns df)) eqn:H;
      [| reflexivity].
    exfalso. apply Hpe. apply Hex. exact H.
  - intros out H. destruct (filter_df_inv _ _ _ _ H) as [Hroe [Hpe _]].
    split; apply Hex; assumption.
Qed.

Lemma filter_df_missing_column_witness :
  filter_df (DataFrame_new []) 10 25 = Raise (KeyError "ROE (%)").
Proof.
  apply (proj1 (filter_df_missing_column (DataFrame_new []) 10 25)).
  intros [].
Defined.

(** ** The table of the main block *)

Lemma distinct_keys_after_filter {Item Key : Type} (rs : list Item)
  (key : Item -> Key) (test : Item -> bool) :
  NoDup (map key rs) -> NoDup (map key (filter test rs)).
Proof.
  induction rs as [| r rs IH]; cbn [map filter]; intros Hnd; [constructor |].
  inversion Hnd as [| x l' Hnotin Hrest]; subst.
  destruct (test r); cbn [map]; [| exact (IH Hrest)].
  constructor; [| exact (IH Hrest)].
  intros Hin. apply Hnotin.
  apply in_map_iff in Hin as [r' [Heq Hin]]. apply filter_In in Hin as [Hin _].
  apply in_map_iff. exists r'. auto.
Qed.

(** X8: a table returned by the main block comes from a non-empty
    selection, has the eight columns even when no row passed the filter, and
    has at most one row per company. *)
Theorem main_data_table_shape (provider : Provider)
  (selected_companies : list string) (min_roe max_pe : Z)
  (log log' : list string) (out : DataFrame) :
  main_data provider selected_companies min_roe max_pe log = (Ok out, log') ->
  selected_companies <> []
  /\ columns out = column_names
  /\ NoDup (map Company (rows out)).
Proof.
  intros Hmain.
  destruct (main_data_ok _ _ _ _ _ _ _ Hmain)
    as [tickers [data [Hsel [Hfetch Hfilter]]]].
  destruct (filter_df_inv _ _ _ _ Hfilter) as [Hroe [_ ->]].
  destruct (fetch_rows_ok _ _ _ _ _ _ Hfetch) as [_ [new [-> Hall]]].
  cbn [app] in *. cbn [columns rows DataFrame_new].
  split; [| split].
  - intros ->. cbn in Hsel. injection Hsel as <-.
    inversion Hall; subst. discriminate Hroe.
  - destruct new; [discriminate Hroe | reflexivity].
  - apply distinct_keys_after_filter. rewrite (rows_companies _ _ _ Hall).
    apply (select_tickers_NoDup _ [] _ (NoDup_nil _) Hsel).
Qed.

Lemma main_data_table_shape_witness :
  ["Axis Bank"] <> []
  /\ columns {| columns := column_names; rows := [] |} = column_names
  /\ NoDup (map Company (rows {| columns := column_names; rows := [] |})).
Proof.
  apply (main_data_table_shape hdfc_only ["Axis Bank"] 10 25 []
           ["AXISBANK.NS"]).
  vm_compute. reflexivity.
Defined.

(** The requests of the loop: a prefix of the symbols it was given. *)
Lemma fetch_rows_requests (provider : Provider) (items : dict string) :
  forall (data : list Row) (log log' : list string) (r : result (list Row)),
    fetch_rows provider items data log = (r, log') ->
    exists reqs rest,
      map snd items = reqs ++ rest /\ log' = log ++ reqs.
Proof.
  induction items as [| [name symbol] items IH]; intros data log log' r H.
  - cbn in H. injection H as _ <-. exists [], [].
    split; [reflexivity | symmetry; apply app_nil_r].
  - rewrite fetch_rows_cons in H.
    destruct (row_for provider (name, symbol)) as [row | e].
    + destruct (IH _ _ _ _ H) as [reqs [rest [Hsplit ->]]].
      exists (symbol :: reqs), rest. cbn [map snd app].
      rewrite Hsplit, <- app_assoc. split; reflexivity.
    + injection H as _ <-. exists [symbol], (map snd items).
      split; reflexivity.
Qed.

(** X9: whatever the outcome of the main block, the requests it sends are
    for symbols of selected companies only, and no symbol is requested
    twice. *)
Theorem main_data_requests (provider : Provider)
  (selected_companies : list string) (min_roe max_pe : Z)
  (log log' : list string) (r : result DataFrame) :
  main_data provider selected_companies min_roe max_pe log = (r, log') ->
  exists reqs,
    log' = log ++ reqs
    /\ NoDup reqs
    /\ forall symbol,
         In symbol reqs ->
         exists name,
           In name selected_companies
           /\ In (name, symbol) bank_nifty_tickers.
Proof.
  unfold main_data, fetch_data, bind, lift, ret. intros H.
  destruct (select_tickers selected_companies []) as [tickers | e] eqn:Hsel.
  - destruct (fetch_rows provider tickers [] log) as [fetched log1] eqn:Hf.
    assert (Hlog : log' = log1) by (destruct fetched; congruence).
    subst log1.
    destruct (fetch_rows_requests _ _ _ _ _ _ Hf) as [reqs [rest [Hs ->]]].
    assert (Hdir : forall name symbol,
               In (name, symbol) tickers ->
               In name selected_companies
               /\ In (name, symbol) bank_nifty_tickers).
    { intros name symbol Hin.
      destruct (select_tickers_In _ _ _ Hsel _ _ Hin) as [[] | Hok].
      exact Hok. }
    exists reqs. split; [reflexivity |]. split.
    + assert (Hnd : NoDup (map snd tickers)).
      { apply restricted_symbols_NoDup.
        - apply (select_tickers_NoDup _ [] _ (NoDup_nil _) Hsel).
        - intros name symbol Hin. apply (Hdir _ _ Hin). }
      rewrite Hs in Hnd. exact (NoDup_app_remove_r _ _ Hnd).
    + intros symbol Hin.
      assert (Hin' : In symbol (map snd tickers))
        by (rewrite Hs; apply in_or_app; left; exact Hin).
      apply in_map_iff in Hin' as [[name s] [Heq Hitem]].
      cbn [snd] in Heq. subst s. exists name. apply (Hdir _ _ Hitem).
  - injection H as _ <-. exists []. rewrite app_nil_r.
    split; [reflexivity |]. split; [constructor | intros ? []].
Qed.

Lemma main_data_requests_witness :
  exists reqs,
    ["HDFCBANK.NS"; "AXISBANK.NS"] = [] ++ reqs
    /\ NoDup reqs
    /\ forall symbol,
         In symbol reqs ->
         exists name,
           In name ["HDFC Bank"; "Axis Bank"; "Canara Bank"]
           /\ In (name, symbol) bank_nifty_tickers.
Proof.
  apply (main_data_requests axis_unreachable
           ["HDFC Bank"; "Axis Bank"; "Canara Bank"] 10 25 []
           ["HDFCBANK.NS"; "AXISBANK.NS"]
           (Raise (ProviderError "AXISBANK.NS"))).
  vm_compute. reflexivity.
Defined.

Lemma make_row_PE (name : string) (info : Info) (row : Row) :
  make_row name info = Ok row -> PE_Ratio row = trailingPE info.
Proof.
  unfold make_row. intros H. repeat step_ok H.
  injection H as <-. reflexivity.
Qed.

(** X10: a company whose quote has no trailing P/E (in particular a company
    without any data) never appears in the table of the main block, whatever
    the sliders. *)
Theorem company_without_pe_not_shown (provider : Provider)
  (selected_companies : list string) (min_roe max_pe : Z)
  (log log' : list string) (out : DataFrame)
  (name symbol : string) (info : Info) :
  main_data provider selected_companies min_roe max_pe log = (Ok out, log') ->
  In (name, symbol) bank_nifty_tickers ->
  provider symbol = Ok info ->
  trailingPE info = None ->
  ~ In name (map Company (rows out)).
Proof.
  intros Hmain Hdir Hinfo Hpe Hin.
  apply in_map_iff in Hin as [r [Hname Hr]].
  destruct (main_data_rows _ _ _ _ _ _ _ _ Hmain Hr)
    as [Hkeep [symbol' [_ [Hdir' Hrow]]]].
  rewrite Hname in Hdir', Hrow.
  assert (symbol' = symbol)
    by exact (NoDup_map_fst_functional _ _ _ _ directory_keys_NoDup
                Hdir' Hdir).
  subst symbol'. unfold row_for in Hrow. cbn [fst snd] in Hrow.
  rewrite Hinfo in Hrow. cbn [rbind] in Hrow.
  apply make_row_PE in Hrow.
  apply keeps_pe_present in Hkeep as [_ [pe [Hsome _]]].
  congruence.
Qed.

Lemma company_without_pe_not_shown_witness :
  ~ In "Axis Bank"
      (map Company
         (rows {| columns := column_names;
                  rows := [sample_row "HDFC Bank"] |})).
Proof.
  apply (company_without_pe_not_shown hdfc_only ["Axis Bank"; "HDFC Bank"]
           0 50 [] ["AXISBANK.NS"; "HDFCBANK.NS"]
           {| columns := column_names; rows := [sample_row "HDFC Bank"] |}
           "Axis Bank" "AXISBANK.NS" no_data).
  - vm_compute. reflexivity.
  - cbn. auto.
  - reflexivity.
  - reflexivity.
Defined.

(** X11: with the sliders in their ranges (minimum ROE 0 to 30, maximum P/E
    5 to 50) no shown row has a negative ROE (%) or a P/E above 50. *)
Theorem slider_ranges_bound_rows (provider : Provider)
  (selected_companies : list string) (min_roe max_pe : Z)
  (log log' : list string) (out : DataFrame) (r : Row) :
  slider_value 0 30 min_roe = true ->
  slider_value 5 50 max_pe = true ->
  main_data provider selected_companies min_roe max_pe log = (Ok out, log') ->
  In r (rows out) ->
  ge (ROE_pct r) (PyInt 0) = true
  /\ exists pe, PE_Ratio r = Some pe /\ le pe (PyInt 50) = true.
Proof.
  unfold slider_value. intros Ha Hb Hmain Hin.
  apply andb_prop in Ha as [Ha _]. apply andb_prop in Hb as [_ Hb].
  apply Z.leb_le in Ha, Hb.
  destruct (main_data_rows _ _ _ _ _ _ _ _ Hmain Hin) as [Hkeep _].
  apply keeps_pe_present in Hkeep as [Hroe [pe [Hpe Hle]]].
  split; [exact (ge_int_mono _ _ _ Ha Hroe) |].
  exists pe. split; [exact Hpe | exact (le_int_mono _ _ _ Hb Hle)].
Qed.

Lemma slider_ranges_bound_rows_witness :
  ge (ROE_pct (sample_row "HDFC Bank")) (PyInt 0) = true
  /\ exists pe,
       PE_Ratio (sample_row "HDFC Bank") = Some pe
       /\ le pe (PyInt 50) = true.
Proof.
  apply (slider_ranges_bound_rows hdfc_only ["Axis Bank"; "HDFC Bank"]
           10 25 [] ["AXISBANK.NS"; "HDFCBANK.NS"]
           {| columns := column_names; rows := [sample_row "HDFC Bank"] |}).
  - reflexivity.
  - reflexivity.
  - vm_compute. reflexivity.
  - left. reflexivity.
Defined.

(** ** Conversions that cannot overflow *)

Lemma digits2_pos_iter (p k : positive) :
  digits2_pos (Pos.iter xO p k) = (digits2_pos p + k)%positive.
Proof.
  induction k as [| k IH] using Pos.peano_ind.
  - cbn. lia.
  - rewrite Pos.iter_succ. cbn [digits2_pos]. rewrite IH. lia.
Qed.

(** A mantissa of 53 bits with an exponent in range is already a binary64:
    rounding leaves it as it is. *)
Lemma binary_round_aux_exact (s : bool) (m : positive) (e : Z) :
  Zpos (digits2_pos m) = 53 -> -1074 <= e <= 971 ->
  binary_round_aux prec emax s (Zpos m) e loc_Exact = S754_finite s m e.
Proof.
  intros Hm He.
  assert (Hshr : shr_fexp prec emax (Zpos m) e loc_Exact
                 = ({| shr_m := Zpos m; shr_r := false; shr_s := false |}, e)).
  { unfold shr_fexp. cbn [Zdigits2 shr_record_of_loc]. rewrite Hm.
    replace (fexp prec emax (53 + e) - e) with 0
      by (unfold fexp, SpecFloat.emin, prec, emax; lia).
    reflexivity. }
  unfold binary_round_aux. rewrite Hshr.
  cbn [shr_m loc_of_shr_record round_nearest_even]. rewrite Hshr.
  cbn [shr_m].
  replace (Z.leb e (emax - prec)) with true; [reflexivity |].
  symmetry. apply Z.leb_le. unfold prec, emax. lia.
Qed.

Lemma binary_round_small (s : bool) (p : positive) :
  Zpos p < 2 ^ 53 ->
  exists m e, binary_round prec emax s p 0 = S754_finite s m e.
Proof.
  intros Hp. pose proof (digits2_pos_bounds p) as [Hlo _].
  assert (Hd : Zpos (digits2_pos p) <= 53).
  { destruct (Z_le_gt_dec (Zpos (digits2_pos p)) 53) as [H | H]; [exact H |].
    exfalso.
    assert (2 ^ 53 <= 2 ^ (Z.pos (digits2_pos p) - 1))
      by (apply Z.pow_le_mono_r; lia).
    lia. }
  unfold binary_round.
  set (d := digits2_pos p) in *.
  assert (Hfexp : fexp prec emax (Zpos d + 0) = Zpos d - 53)
    by (unfold fexp, SpecFloat.emin, prec, emax; lia).
  rewrite Hfexp. unfold shl_align.
  destruct (Z.pos d - 53 - 0) as [| k | k] eqn:Hk; try lia.
  - exists p, 0. apply binary_round_aux_exact; [fold d; lia | lia].
  - exists (Pos.iter xO p k), (Z.pos d - 53).
    apply binary_round_aux_exact; [| lia].
    rewrite digits2_pos_iter. fold d. lia.
Qed.

Lemma float_of_int_small (z : Z) :
  Z.abs z < 2 ^ 53 -> exists f, float_of_int z = Ok f.
Proof.
  intros Hz. unfold float_of_int.
  destruct z as [| p | p]; cbn [binary_normalize].
  - eexists. reflexivity.
  - destruct (binary_round_small false p Hz) as [m [e ->]].
    eexists. reflexivity.
  - destruct (binary_round_small true p Hz) as [m [e ->]].
    eexists. reflexivity.
Qed.

Lemma small_field_as_float (field : option number) :
  small_field field = true ->
  exists f, as_float (get field (PyInt 0)) = Ok f.
Proof.
  destruct field as [[z | f] |]; cbn [small_field small_number get as_float].
  - intros H. apply Z.ltb_lt in H. exact (float_of_int_small z H).
  - intros _. exists f. reflexivity.
  - intros _. eexists. reflexivity.
Qed.

Lemma as_float_raises (v : number) (e : PyExn) :
  as_float v = Raise e -> e = OverflowError.
Proof.
  destruct v as [z | f]; cbn [as_float]; [| discriminate].
  unfold float_of_int.
  destruct (binary_normalize prec emax z 0 false); try discriminate.
  intros [= <-]. reflexivity.
Qed.

Lemma mul_raises (a b : number) (e : PyExn) :
  mul a b = Raise e -> e = OverflowError.
Proof.
  unfold mul.
  destruct a as [x | x], b as [y | y]; try discriminate;
    cbn [as_float rbind].
  - destruct (float_of_int x) eqn:Hx; cbn [rbind]; [discriminate |].
    intros [= <-]. exact (as_float_raises (PyInt x) _ Hx).
  - destruct (float_of_int y) eqn:Hy; cbn [rbind]; [discriminate |].
    intros [= <-]. exact (as_float_raises (PyInt y) _ Hy).
Qed.

Lemma make_row_raises (name : string) (info : Info) (e : PyExn) :
  make_row name info = Raise e -> e = OverflowError.
Proof.
  unfold make_row, trend_of. intros H.
  destruct (mul (get (fiftyTwoWeekHigh info) (PyInt 0)) (PyFloat 0.95))
    as [h | e1] eqn:Hh; cbn [rbind] in H;
    [| injection H as <-; exact (mul_raises _ _ _ Hh)].
  assert (Hcap : forall t,
             (let? trend := Ok t in
              let? cap := truediv (get (marketCap info) (PyInt 0)) 1e7 in
              let? roe := mul (get (returnOnEquity info) (PyInt 0))
                              (PyInt 100) in
              Ok {| Company := name;
                    Current_Price := get (currentPrice info) (PyInt 0);
                    High_52_Week := get (fiftyTwoWeekHigh info) (PyInt 0);
                    Low_52_Week := get (fiftyTwoWeekLow info) (PyInt 0);
                    Trend_glyph := trend;
                    Market_Cap_Cr := round2 cap;
                    PE_Ratio := trailingPE info;
                    ROE_pct := round2 roe |}) = Raise e ->
             e = OverflowError).
  { intros t. cbn [rbind]. unfold truediv.
    destruct (as_float (get (marketCap info) (PyInt 0))) as [c | e1] eqn:Hc;
      cbn [rbind]; [| intros [= <-]; exact (as_float_raises _ _ Hc)].
    replace (1e7 =? 0)%float with false by (vm_compute; reflexivity).
    rewrite mul_by_100. cbn [rbind]. discriminate. }
  destruct (gt _ h); [exact (Hcap _ H) |].
  destruct (mul (get (fiftyTwoWeekLow info) (PyInt 0)) (PyFloat 1.05))
    as [l | e1] eqn:Hl; cbn [rbind] in H;
    [| injection H as <-; exact (mul_raises _ _ _ Hl)].
  destruct (lt _ l); exact (Hcap _ H).
Qed.

Lemma make_row_small_quote (name : string) (info : Info) :
  small_quote info = true -> exists row, make_row name info = Ok row.
Proof.
  unfold small_quote. intros H.
  apply andb_prop in H as [H Hcap]. apply andb_prop in H as [Hhigh Hlow].
  destruct (small_field_as_float _ Hhigh) as [h Hh].
  destruct (small_field_as_float _ Hlow) as [l Hl].
  destruct (small_field_as_float _ Hcap) as [c Hc].
  unfold make_row.
  destruct (trend_of_returns (get (currentPrice info) (PyInt 0)) _ _ _ _
              Hh Hl) as [t ->].
  cbn [rbind]. unfold truediv. rewrite Hc. cbn [rbind].
  replace (1e7 =? 0)%float with false by (vm_compute; reflexivity).
  rewrite mul_by_100. cbn [rbind]. eexists. reflexivity.
Qed.

(** X12: for a quote whose fields are each absent or a number (an [int] or
    a [float]), the normalizer returns a row whenever the 52-week high, the
    52-week low and the market capitalization are absent, floats, or integers
    below 2^53 in magnitude, with the company's name and the quote's prices
    and P/E unchanged; and when it fails on such a quote, the exception is
    [OverflowError]. *)
Theorem make_row_returns (name : string) (info : Info) :
  (small_quote info = true ->
   exists row,
     make_row name info = Ok row
     /\ Company row = name
     /\ Current_Price row = get (currentPrice info) (PyInt 0)
     /\ High_52_Week row = get (fiftyTwoWeekHigh info) (PyInt 0)
     /\ Low_52_Week row = get (fiftyTwoWeekLow info) (PyInt 0)
     /\ PE_Ratio row = trailingPE info)
  /\ (forall e, make_row name info = Raise e -> e = OverflowError).
Proof.
  split; [| intros e; apply make_row_raises].
  unfold small_quote. intros H.
  apply andb_prop in H as [H Hcap]. apply andb_prop in H as [Hhigh Hlow].
  destruct (small_field_as_float _ Hhigh) as [h Hh].
  destruct (small_field_as_float _ Hlow) as [l Hl].
  destruct (small_field_as_float _ Hcap) as [c Hc].
  unfold make_row.
  destruct (trend_of_returns (get (currentPrice info) (PyInt 0)) _ _ _ _
              Hh Hl) as [t ->].
  cbn [rbind]. unfold truediv. rewrite Hc. cbn [rbind].
  replace (1e7 =? 0)%float with false by (vm_compute; reflexivity).
  rewrite mul_by_100. cbn [rbind].
  eexists. split; [reflexivity |]. cbn. repeat split; reflexivity.
Qed.

Lemma make_row_returns_witness :
  exists row,
    make_row "HDFC Bank" sample_quote_int = Ok row
    /\ Company row = "HDFC Bank"
    /\ Current_Price row = PyInt 1500
    /\ High_52_Week row = PyInt 1600
    /\ Low_52_Week row = PyInt 1000
    /\ PE_Ratio row = Some (PyFloat 18.2).
Proof.
  apply (proj1 (make_row_returns "HDFC Bank" sample_quote_int)).
  vm_compute. reflexivity.
Defined.

(** ** When the main block returns and how it fails *)

Lemma Forall2_exists {A B : Type} (P : A -> B -> Prop) (l : list A) :
  (forall a, In a l -> exists b, P a b) -> exists l', Forall2 P l l'.
Proof.
  induction l as [| a l IH]; intros H.
  - exists []. constructor.
  - destruct (H a (or_introl eq_refl)) as [b Hb].
    destruct IH as [l' Hl']; [intros x Hx; apply H; right; exact Hx |].
    exists (b :: l'). constructor; assumption.
Qed.

(** X13: for a non-empty value of the multiselect and a provider that
    answers the symbol of every selected company with a quote whose fields
    are each absent or a number, and whose high, low and market
    capitalization are absent, floats or integers below 2^53 in magnitude,
    the main block returns a table with the eight columns, after exactly one
    request per selected company. *)
Theorem main_data_returns (provider : Provider)
  (selected_companies : list string) (min_roe max_pe : Z)
  (log : list string) :
  multiselect_value selected_companies ->
  selected_companies <> [] ->
  (forall name symbol,
     In name selected_companies ->
     In (name, symbol) bank_nifty_tickers ->
     exists info, provider symbol = Ok info /\ small_quote info = true) ->
  exists out reqs,
    main_data provider selected_companies min_roe max_pe log
    = (Ok out, log ++ reqs)
    /\ List.length reqs = List.length selected_companies
    /\ columns out = column_names.
Proof.
  intros [Hnd Hvalid] Hne Hprov.
  destruct (select_tickers_distinct selected_companies [] Hnd Hvalid)
    as [tickers [Hsel [Hkeys Hdir]]].
  cbn [app] in Hsel.
  destruct (Forall2_exists
              (fun item row => row_for provider item = Ok row) tickers)
    as [data Hall].
  { intros [name symbol] Hin. unfold row_for. cbn [fst snd].
    destruct (Hprov name symbol) as [info [-> Hsmall]].
    - rewrite <- Hkeys. apply in_map_iff. exists (name, symbol). auto.
    - exact (Hdir _ _ Hin).
    - cbn [rbind]. exact (make_row_small_quote name info Hsmall). }
  assert (Hdata : data <> []).
  { intros ->. inversion Hall; subst. apply Hne. reflexivity. }
  exists {| columns := column_names;
            rows := filter (keeps min_roe max_pe) data |}, (map snd tickers).
  split; [| split].
  - unfold main_data, fetch_data, bind, lift, ret. rewrite Hsel.
    rewrite (fetch_rows_all _ _ _ [] log Hall). cbn [app].
    rewrite filter_df_rows.
    + destruct data; [contradiction | reflexivity].
    + destruct data; [contradiction | reflexivity].
    + destruct data; [contradiction | reflexivity].
  - rewrite length_map, <- Hkeys, length_map. reflexivity.
  - reflexivity.
Qed.

Lemma main_data_returns_witness :
  exists out reqs,
    main_data hdfc_only ["Axis Bank"; "HDFC Bank"] 10 25 []
    = (Ok out, [] ++ reqs)
    /\ List.length reqs = List.length ["Axis Bank"; "HDFC Bank"]
    /\ columns out = column_names.
Proof.
  apply main_data_returns.
  - split.
    + repeat (constructor; [cbn; intuition discriminate |]). constructor.
    + vm_compute. reflexivity.
  - discriminate.
  - intros name symbol _ _. unfold hdfc_only.
    destruct (String.eqb symbol "HDFCBANK.NS");
      eexists; (split; [reflexivity | vm_compute; reflexivity]).
Defined.

Lemma dict_get_raises {V : Type} (d : dict V) (k : string) (e : PyExn) :
  dict_get d k = Raise e ->
  e = KeyError k /\ existsb (String.eqb k) (map fst d) = false.
Proof.
  induction d as [| [k' v] d IH]; cbn [dict_get map fst existsb].
  - intros [= <-]. split; reflexivity.
  - rewrite (String.eqb_sym k k').
    destruct (String.eqb k' k); [discriminate | exact IH].
Qed.

Lemma select_tickers_raises (selected : list string) :
  forall acc e,
    select_tickers selected acc = Raise e ->
    exists k, In k selected /\ in_directory k = false /\ e = KeyError k.
Proof.
  induction selected as [| k rest IH]; intros acc e H; [discriminate H |].
  cbn [select_tickers] in H.
  destruct (dict_get bank_nifty_tickers k) as [s | e'] eqn:Hget;
    cbn [rbind] in H.
  - destruct (IH _ _ H) as [k' [Hin Hk']]. exists k'.
    split; [right; exact Hin | exact Hk'].
  - injection H as <-. destruct (dict_get_raises _ _ _ Hget) as [-> Hout].
    exists k. split; [left; reflexivity |]. split; [exact Hout | reflexivity].
Qed.

Lemma select_tickers_nonempty (selected : list string) :
  forall acc out,
    select_tickers selected acc = Ok out ->
    (List.length acc <= List.length out)%nat
    /\ (selected <> [] -> out <> []).
Proof.
  induction selected as [| k rest IH]; intros acc out H.
  - cbn in H. injection H as <-. split; [lia | intros Hne; contradiction].
  - cbn [select_tickers] in H. step_ok H.
    destruct (IH _ _ H) as [Hlen _].
    assert (Hset : (1 <= List.length (dict_set acc k a))%nat).
    { destruct acc as [| [k' v'] acc]; cbn [dict_set]; [cbn; lia |].
      destruct (String.eqb k' k); cbn; lia. }
    assert (Hacc : (List.length acc <= List.length (dict_set acc k a))%nat).
    { clear. induction acc as [| [k' v'] acc IHacc]; cbn [dict_set];
        [cbn; lia |].
      destruct (String.eqb k' k); cbn [List.length]; lia. }
    split; [lia |]. intros _ ->. cbn in Hlen. lia.
Qed.

Lemma fetch_rows_raise_inv (provider : Provider) (items : dict string) :
  forall data log log' e,
    fetch_rows provider items data log = (Raise e, log') ->
    exists item, In item items /\ row_for provider item = Raise e.
Proof.
  induction items as [| [name symbol] items IH]; intros data log log' e H.
  - discriminate H.
  - rewrite fetch_rows_cons in H.
    destruct (row_for provider (name, symbol)) as [row | e'] eqn:Hrow.
    + destruct (IH _ _ _ _ H) as [item [Hin Hitem]].
      exists item. split; [right; exact Hin | exact Hitem].
    + injection H as <- _. exists (name, symbol).
      split; [left; reflexivity | exact Hrow].
Qed.

(** X14: against a provider whose answers hold, under each key, a number
    or nothing, the main block can fail in four ways only: [KeyError] for a
    selected name that is not in the directory, [KeyError] for the column
    "ROE (%)" when nothing is selected, [OverflowError] from the normalizer,
    or the exception that the provider raised for the symbol of a selected
    company; the values of the sliders never make it fail. *)
Theorem main_data_failures (provider : Provider)
  (selected_companies : list string) (min_roe max_pe : Z)
  (log log' : list string) (e : PyExn) :
  main_data provider selected_companies min_roe max_pe log = (Raise e, log') ->
  (exists k,
     In k selected_companies /\ in_directory k = false /\ e = KeyError k)
  \/ (selected_companies = [] /\ e = KeyError "ROE (%)")
  \/ e = OverflowError
  \/ (exists name symbol,
        In name selected_companies
        /\ In (name, symbol) bank_nifty_tickers
        /\ provider symbol = Raise e).
Proof.
  unfold main_data, fetch_data, bind, lift, ret. intros H.
  destruct (select_tickers selected_companies []) as [tickers | e1] eqn:Hsel.
  - destruct (fetch_rows provider tickers [] log) as [[data | e1] log1]
      eqn:Hfetch.
    + right. left.
      destruct (fetch_rows_ok _ _ _ _ _ _ Hfetch) as [_ [new [-> Hall]]].
      cbn [app] in H. destruct new as [| row new].
      * inversion Hall; subst. injection H as <- _.
        split; [| reflexivity].
        destruct selected_companies as [| k rest]; [reflexivity |].
        destruct (select_tickers_nonempty _ _ _ Hsel) as [_ Hne].
        exfalso. apply Hne; [discriminate | reflexivity].
      * rewrite filter_df_rows in H by reflexivity. discriminate H.
    + injection H as <- _.
      destruct (fetch_rows_raise_inv _ _ _ _ _ _ Hfetch)
        as [[name symbol] [Hin Hrow]].
      unfold row_for in Hrow. cbn [fst snd] in Hrow.
      destruct (provider symbol) as [info | e2] eqn:Hprov; cbn [rbind] in Hrow.
      * right. right. left. exact (make_row_raises _ _ _ Hrow).
      * injection Hrow as ->. right. right. right.
        destruct (select_tickers_In _ _ _ Hsel _ _ Hin) as [[] | [Hs Hd]].
        exists name, symbol. auto.
  - injection H as <- _. left. exact (select_tickers_raises _ _ _ Hsel).
Qed.

Lemma main_data_failures_witness :
  (exists k,
     In k ["HDFC Bank"; "Axis Bank"] /\ in_directory k = false
     /\ ProviderError "AXISBANK.NS" = KeyError k)
  \/ (["HDFC Bank"; "Axis Bank"] = []
      /\ ProviderError "AXISBANK.NS" = KeyError "ROE (%)")
  \/ ProviderError "AXISBANK.NS" = OverflowError
  \/ (exists name symbol,
        In name ["HDFC Bank"; "Axis Bank"]
        /\ In (name, symbol) bank_nifty_tickers
        /\ axis_unreachable symbol = Raise (ProviderError "AXISBANK.NS")).
Proof.
  apply (main_data_failures axis_unreachable ["HDFC Bank"; "Axis Bank"]
           10 25 [] ["HDFCBANK.NS"; "AXISBANK.NS"]).
  vm_compute. reflexivity.
Defined.

(** ** Longer directories and the charts *)

Lemma fetch_rows_app (provider : Provider) (xs ys : dict string) :
  forall data log,
    fetch_rows provider (xs ++ ys) data log
    = match fetch_rows provider xs data log with
      | (Ok data', log') => fetch_rows provider ys data' log'
      | (Raise e, log') => (Raise e, log')
      end.
Proof.
  induction xs as [| [name symbol] xs IH]; intros data log.
  - reflexivity.
  - cbn [app]. rewrite !fetch_rows_cons.
    destruct (row_for provider (name, symbol)); [apply IH | reflexivity].
Qed.

(** X15: appending companies to the directory given to [fetch_data] leaves
    the rows of the companies before them as they were and requests the new
    symbols after the old ones; if the shorter fetch raises, the longer one
    raises the same exception after the same requests. *)
Theorem fetch_data_extend (provider : Provider) (xs ys : dict string)
  (log log1 : list string) :
  (forall e,
     fetch_data provider xs log = (Raise e, log1) ->
     fetch_data provider (xs ++ ys) log = (Raise e, log1))
  /\ (forall df1 df2 log2,
        fetch_data provider xs log = (Ok df1, log1) ->
        fetch_data provider (xs ++ ys) log = (Ok df2, log2) ->
        log2 = log1 ++ map snd ys
        /\ exists more,
             rows df2 = rows df1 ++ more
             /\ map Company more = map fst ys).
Proof.
  unfold fetch_data, bind, ret. split.
  - intros e H. rewrite fetch_rows_app.
    destruct (fetch_rows provider xs [] log) as [[d | e1] l]; [discriminate H |].
    exact H.
  - intros df1 df2 log2 H1 H2. rewrite fetch_rows_app in H2.
    destruct (fetch_rows provider xs [] log) as [[d | e1] l];
      [| discriminate H1].
    injection H1 as <- <-.
    destruct (fetch_rows provider ys d l) as [[d2 | e2] l2] eqn:Hys;
      [| discriminate H2].
    injection H2 as <- <-.
    destruct (fetch_rows_ok _ _ _ _ _ _ Hys) as [Hlog [more [-> Hall]]].
    split; [exact Hlog |]. exists more. cbn [DataFrame_new rows].
    split; [reflexivity | exact (rows_companies _ _ _ Hall)].
Qed.

Lemma fetch_data_extend_witness :
  ["HDFCBANK.NS"; "AXISBANK.NS"] = ["HDFCBANK.NS"] ++ map snd
                                     [("Axis Bank", "AXISBANK.NS")]
  /\ exists more,
       rows (DataFrame_new [sample_row "HDFC Bank"; zero_row "Axis Bank"])
       = rows (DataFrame_new [sample_row "HDFC Bank"]) ++ more
       /\ map Company more = map fst [("Axis Bank", "AXISBANK.NS")].
Proof.
  apply (proj2 (fetch_data_extend hdfc_only [("HDFC Bank", "HDFCBANK.NS")]
                  [("Axis Bank", "AXISBANK.NS")] [] ["HDFCBANK.NS"])
               (DataFrame_new [sample_row "HDFC Bank"])
               (DataFrame_new [sample_row "HDFC Bank"; zero_row "Axis Bank"])
               ["HDFCBANK.NS"; "AXISBANK.NS"]);
    vm_compute; reflexivity.
Defined.

(** X16: when the page gets as far as the charts, it draws exactly one
    chart per row of the filtered table, in table order; each chart has the
    three bars Current, High and Low with the row's current price, 52-week
    high and 52-week low, is titled with the company's name and its trend
    glyph, and belongs to a selected company. *)
Theorem dashboard_charts (provider : Provider)
  (selected_companies : list string) (min_roe max_pe : Z)
  (log log' : list string) (out : DataFrame) (shown : list Chart) :
  dashboard provider selected_companies min_roe max_pe log
  = (Ok (out, shown), log') ->
  Forall2
    (fun row chart =>
       bar_labels chart = ["Current"; "High"; "Low"]
       /\ bar_heights chart
          = [Current_Price row; High_52_Week row; Low_52_Week row]
       /\ title chart
          = (Company row ++ " " ++ glyph (Trend_glyph row))%string
       /\ In (Company row) selected_companies)
    (rows out) shown.
Proof.
  unfold dashboard, bind, ret. intros H.
  destruct (main_data provider selected_companies min_roe max_pe log)
    as [[df | e] log1] eqn:Hmain; [| discriminate H].
  injection H as <- <- <-.
  assert (Hsel : forall r, In r (rows df) -> In (Company r) selected_companies).
  { intros r Hin.
    destruct (main_data_rows _ _ _ _ _ _ _ _ Hmain Hin)
      as [_ [symbol [Hs _]]].
    exact Hs. }
  unfold charts. revert Hsel. generalize (rows df) as rs.
  induction rs as [| r rs IH]; intros Hsel; cbn [map]; constructor.
  - cbn. repeat split. apply Hsel. left. reflexivity.
  - apply IH. intros r' Hin. apply Hsel. right. exact Hin.
Qed.

Lemma dashboard_charts_witness :
  Forall2
    (fun row chart =>
       bar_labels chart = ["Current"; "High"; "Low"]
       /\ bar_heights chart
          = [Current_Price row; High_52_Week row; Low_52_Week row]
       /\ title chart
          = (Company row ++ " " ++ glyph (Trend_glyph row))%string
       /\ In (Company row) ["Axis Bank"; "HDFC Bank"])
    (rows {| columns := column_names; rows := [sample_row "HDFC Bank"] |})
    (charts {| columns := column_names; rows := [sample_row "HDFC Bank"] |}).
Proof.
  apply (dashboard_charts hdfc_only ["Axis Bank"; "HDFC Bank"] 10 25
           [] ["AXISBANK.NS"; "HDFCBANK.NS"]).
  vm_compute. reflexivity.
Defined.

(** ** The exact content of the table *)

Lemma dict_set_keys_keep {V : Type} (d : dict V) (k : string) (v : V)
  (x : string) :
  In x (map fst d) \/ x = k -> In x (map fst (dict_set d k v)).
Proof.
  induction d as [| [k' v'] d IH]; cbn [dict_set map fst].
  - intros [[] | ->]. left. reflexivity.
  - destruct (String.eqb_spec k' k) as [-> | Hne]; cbn [map fst].
    + intros [[H | H] | ->]; [left; exact H | right; exact H |
                               left; reflexivity].
    + intros [[H | H] | ->].
      * left. exact H.
      * right. apply IH. left. exact H.
      * right. apply IH. right. reflexivity.
Qed.

Lemma select_tickers_keys (selected : list string) :
  forall acc out name,
    select_tickers selected acc = Ok out ->
    In name (map fst acc) \/ In name selected ->
    In name (map fst out).
Proof.
  induction selected as [| k rest IH]; intros acc out name H Hin.
  - cbn in H. injection H as <-. destruct Hin as [Hin | []]. exact Hin.
  - cbn [select_tickers] in H. step_ok H.
    apply (IH _ _ name H).
    destruct Hin as [Hin | [-> | Hin]].
    + left. apply dict_set_keys_keep. left. exact Hin.
    + left. apply dict_set_keys_keep. right. reflexivity.
    + right. exact Hin.
Qed.

Lemma Forall2_In_left {A B : Type} (P : A -> B -> Prop)
  (la : list A) (lb : list B) (a : A) :
  Forall2 P la lb -> In a la -> exists b, In b lb /\ P a b.
Proof.
  induction 1 as [| a0 b0 la lb Hab _ IH]; intros Hin.
  - destruct Hin.
  - destruct Hin as [<- | Hin].
    + exists b0. split; [left; reflexivity | exact Hab].
    + destruct (IH Hin) as [b [Hb HP]]. exists b. split; [right |]; assumption.
Qed.

(** The row of a selected company that passes the row test is in the
    table. *)
Lemma main_data_rows_complete (provider : Provider) (selected : list string)
  (min_roe max_pe : Z) (log log' : list string) (out : DataFrame)
  (name symbol : string) (r : Row) :
  main_data provider selected min_roe max_pe log = (Ok out, log') ->
  In name selected ->
  In (name, symbol) bank_nifty_tickers ->
  row_for provider (name, symbol) = Ok r ->
  keeps min_roe max_pe r = true ->
  In r (rows out).
Proof.
  intros Hmain Hsel Hdir Hrow Hkeep.
  destruct (main_data_ok _ _ _ _ _ _ _ Hmain)
    as [tickers [data [Hst [Hfetch Hfilter]]]].
  destruct (filter_df_inv _ _ _ _ Hfilter) as [_ [_ ->]].
  destruct (fetch_rows_ok _ _ _ _ _ _ Hfetch) as [_ [new [-> Hall]]].
  cbn [app rows DataFrame_new]. apply filter_In. split; [| exact Hkeep].
  assert (Hkey : In name (map fst tickers))
    by (apply (select_tickers_keys _ _ _ _ Hst); right; exact Hsel).
  apply in_map_iff in Hkey as [[name' symbol'] [Hn Hitem]].
  cbn [fst] in Hn. subst name'.
  destruct (select_tickers_In _ _ _ Hst _ _ Hitem) as [[] | [_ Hdir']].
  assert (symbol' = symbol)
    by exact (NoDup_map_fst_functional _ _ _ _ directory_keys_NoDup
                Hdir' Hdir).
  subst symbol'.
  destruct (Forall2_In_left _ _ _ _ Hall Hitem) as [r' [Hin Hr']].
  assert (r' = r) by congruence. subst r'. exact Hin.
Qed.

(** X17: the rows of the table the main block returns are exactly the
    normalized quotes of the selected companies whose ROE (%) is at least the
    minimum and whose P/E is present and at most the maximum: none is
    missing and none is added. *)
Theorem main_data_rows_exact (provider : Provider)
  (selected_companies : list string) (min_roe max_pe : Z)
  (log log' : list string) (out : DataFrame) (r : Row) :
  main_data provider selected_companies min_roe max_pe log = (Ok out, log') ->
  In r (rows out)
  <-> exists name symbol info,
        In name selected_companies
        /\ dict_get bank_nifty_tickers name = Ok symbol
        /\ provider symbol = Ok info
        /\ make_row name info = Ok r
        /\ ge (ROE_pct r) (PyInt min_roe) = true
        /\ exists pe, PE_Ratio r = Some pe /\ le pe (PyInt max_pe) = true.
Proof.
  intros Hmain. split.
  - intros Hin.
    destruct (main_data_rows _ _ _ _ _ _ _ _ Hmain Hin)
      as [Hkeep [symbol [Hsel [Hdir Hrow]]]].
    apply keeps_pe_present in Hkeep as [Hroe Hpe].
    unfold row_for in Hrow. cbn [fst snd] in Hrow.
    destruct (provider symbol) as [info | e] eqn:Hprov; [| discriminate Hrow].
    cbn [rbind] in Hrow.
    exists (Company r), symbol, info.
    split; [exact Hsel |]. split; [| auto].
    destruct (dict_get bank_nifty_tickers (Company r)) as [s | e] eqn:Hget.
    + apply dict_get_In in Hget.
      rewrite (NoDup_map_fst_functional _ _ _ _ directory_keys_NoDup
                 Hget Hdir).
      reflexivity.
    + exfalso. destruct (dict_get_raises _ _ _ Hget) as [_ Hout].
      assert (Htrue : existsb (String.eqb (Company r))
                        (map fst bank_nifty_tickers) = true).
      { apply existsb_exists. exists (Company r).
        split; [| apply String.eqb_refl].
        apply in_map_iff. exists (Company r, symbol). auto. }
      congruence.
  - intros [name [symbol [info [Hsel [Hget [Hprov [Hrow [Hroe Hpe]]]]]]]].
    apply (main_data_rows_complete _ _ _ _ _ _ _ name symbol r Hmain Hsel).
    + apply dict_get_In. exact Hget.
    + unfold row_for. cbn [fst snd]. rewrite Hprov. exact Hrow.
    + apply keeps_iff. auto.
Qed.

Lemma main_data_rows_exact_witness :
  In (sample_row "HDFC Bank") [sample_row "HDFC Bank"]
  <-> exists name symbol info,
        In name ["Axis Bank"; "HDFC Bank"]
        /\ dict_get bank_nifty_tickers name = Ok symbol
        /\ hdfc_only symbol = Ok info
        /\ make_row name info = Ok (sample_row "HDFC Bank")
        /\ ge (ROE_pct (sample_row "HDFC Bank")) (PyInt 10) = true
        /\ exists pe,
             PE_Ratio (sample_row "HDFC Bank") = Some pe
             /\ le pe (PyInt 25) = true.
Proof.
  apply (main_data_rows_exact hdfc_only ["Axis Bank"; "HDFC Bank"] 10 25
           [] ["AXISBANK.NS"; "HDFCBANK.NS"]
           {| columns := column_names; rows := [sample_row "HDFC Bank"] |}).
  vm_compute. reflexivity.
Defined.

(** X18: selecting more companies never removes a row: when two runs
    against the same provider and with the same sliders both return, and
    every company of the first selection is in the second, every row of the
    first table is a row of the second; so the order of the selection only
    affects the order of the rows. *)
Theorem main_data_selection_grows (provider : Provider)
  (selected selected' : list string) (min_roe max_pe : Z)
  (log1 log1' log2 log2' : list string) (out out' : DataFrame) :
  incl selected selected' ->
  main_data provider selected min_roe max_pe log1 = (Ok out, log1') ->
  main_data provider selected' min_roe max_pe log2 = (Ok out', log2') ->
  incl (rows out) (rows out').
Proof.
  intros Hincl Hmain Hmain' r Hin.
  destruct (main_data_rows _ _ _ _ _ _ _ _ Hmain Hin)
    as [Hkeep [symbol [Hsel [Hdir Hrow]]]].
  exact (main_data_rows_complete _ _ _ _ _ _ _ _ _ _ Hmain'
           (Hincl _ Hsel) Hdir Hrow Hkeep).
Qed.

Lemma main_data_selection_grows_witness :
  incl (rows {| columns := column_names; rows := [sample_row "HDFC Bank"] |})
       (rows {| columns := column_names; rows := [sample_row "HDFC Bank"] |}).
Proof.
  apply (main_data_selection_grows hdfc_only ["HDFC Bank"]
           ["Axis Bank"; "HDFC Bank"] 10 25
           [] ["HDFCBANK.NS"] [] ["AXISBANK.NS"; "HDFCBANK.NS"]).
  - intros k [<- | []]. right. left. reflexivity.
  - vm_compute. reflexivity.
  - vm_compute. reflexivity.
Defined.

(** ** Not-a-number *)

Lemma ge_nan (t : Z) : ge (PyFloat nan) (PyInt t) = false.
Proof.
  unfold ge, compare. change (exact (PyFloat nan)) with XNaN. reflexivity.
Qed.

Lemma le_nan (t : Z) : le (PyFloat nan) (PyInt t) = false.
Proof.
  unfold le, compare. change (exact (PyFloat nan)) with XNaN. reflexivity.
Qed.

(** X19: a row whose ROE (%) or whose P/E is not-a-number is dropped by the
    filter, for every pair of thresholds. *)
Theorem filter_df_drops_nan (df out : DataFrame) (min_roe max_pe : Z)
  (r : Row) :
  filter_df df min_roe max_pe = Ok out ->
  ROE_pct r = PyFloat nan \/ PE_Ratio r = Some (PyFloat nan) ->
  ~ In r (rows out).
Proof.
  intros H Hnan Hin.
  destruct (filter_df_inv _ _ _ _ H) as [_ [_ ->]].
  cbn [rows] in Hin. apply filter_In in Hin as [_ Hkeep].
  apply keeps_pe_present in Hkeep as [Hroe [pe [Hpe Hle]]].
  destruct Hnan as [Hnan | Hnan].
  - rewrite Hnan, ge_nan in Hroe. discriminate Hroe.
  - rewrite Hnan in Hpe. injection Hpe as <-.
    rewrite le_nan in Hle. discriminate Hle.
Qed.

Lemma filter_df_drops_nan_witness :
  ~ In {| Company := "Axis Bank";
          Current_Price := PyFloat 99;
          High_52_Week := PyFloat 100;
          Low_52_Week := PyFloat 98;
          Trend_glyph := Up;
          Market_Cap_Cr := PyFloat 350000;
          PE_Ratio := Some (PyFloat 18.2);
          ROE_pct := PyFloat nan |}
      (rows {| columns := column_names; rows := [sample_row "HDFC Bank"] |}).
Proof.
  apply (filter_df_drops_nan
           (DataFrame_new
              [{| Company := "Axis Bank";
                  Current_Price := PyFloat 99;
                  High_52_Week := PyFloat 100;
                  Low_52_Week := PyFloat 98;
                  Trend_glyph := Up;
                  Market_Cap_Cr := PyFloat 350000;
                  PE_Ratio := Some (PyFloat 18.2);
                  ROE_pct := PyFloat nan |};
               sample_row "HDFC Bank"])
           {| columns := column_names; rows := [sample_row "HDFC Bank"] |}
           0 50).
  - vm_compute. reflexivity.
  - left. reflexivity.
Defined.
